(** * The AT-SPI Text interface of GtkAtspiContext (gtk/a11y/gtkatspitext.c)

    A shallow embedding of the D-Bus method and property handlers that
    bridge the AT-SPI [Text] interface to the [GtkAccessibleText]
    interface, together with the properties of the handlers. *)

From Stdlib Require Import ZArith List String Ascii Bool Lia.
From Stdlib Require Import DecimalString.
Import ListNotations.

Local Open Scope string_scope.
Local Open Scope Z_scope.

(** ** C integer types

    [int] and [unsigned int] are 32 bits wide, [gsize] is 64 bits wide
    (LP64).  Values are integers of [Z]; every conversion the C code
    performs is written out. *)

Definition G_MAXINT : Z := 2147483647.
Definition G_MAXUINT : Z := 4294967295.

(** Conversion to [unsigned int] (also [guint], [gunichar]). *)
Definition to_uint (z : Z) : Z := z mod 2 ^ 32.

(** Conversion to [int] (two's complement wrap-around). *)
Definition to_int (z : Z) : Z := (z + 2 ^ 31) mod 2 ^ 32 - 2 ^ 31.

(** Conversion to [gsize]. *)
Definition to_gsize (z : Z) : Z := z mod 2 ^ 64.

(** The [MAX] and [MIN] macros of GLib, [((a) > (b)) ? (a) : (b)] and
    [((a) < (b)) ? (a) : (b)], on operands already converted to a common
    type. *)
Definition MAX (a b : Z) : Z := if a >? b then a else b.
Definition MIN (a b : Z) : Z := if a <? b then a else b.

(** ** C strings

    A [char *] that may be [NULL] is an [option string]; the characters of
    a [string] are its bytes. *)

Definition byte_val (c : ascii) : Z := Z.of_N (N_of_ascii c).

Definition byte_of (z : Z) : ascii := ascii_of_N (Z.to_N (z mod 256)).

(** The bytes of a buffer up to its first NUL: what a reader of a C string
    sees.  A buffer without a NUL is read to its end. *)
Fixpoint cstr (s : string) : string :=
  match s with
  | EmptyString => EmptyString
  | String c r => if byte_val c =? 0 then EmptyString else String c (cstr r)
  end.

Fixpoint string_drop (n : nat) (s : string) : string :=
  match n, s with
  | O, _ => s
  | S _, EmptyString => EmptyString
  | S k, String _ r => string_drop k r
  end.

(** [g_strcmp0]: a NULL-safe [strcmp]; only its sign matters here. *)
Definition g_strcmp0 (a b : option string) : Z :=
  match a, b with
  | None, None => 0
  | None, Some _ => -1
  | Some _, None => 1
  | Some x, Some y =>
      match String.compare x y with
      | Eq => 0
      | Lt => -1
      | Gt => 1
      end
  end.

(** ** GLib's UTF-8 primitives *)

(** The table [g_utf8_skip]: the length of a sequence from its first
    byte. *)
Definition g_utf8_skip (b : Z) : nat :=
  if b <? 192 then 1%nat
  else if b <? 224 then 2%nat
  else if b <? 240 then 3%nat
  else if b <? 248 then 4%nat
  else if b <? 252 then 5%nat
  else if b <? 254 then 6%nat
  else 1%nat.

(** [g_utf8_next_char (p)]: [p] advanced by the [g_utf8_skip] entry of
    its first byte. *)
Definition g_utf8_next_char (p : string) : string :=
  match p with
  | EmptyString => EmptyString
  | String c _ => string_drop (g_utf8_skip (byte_val c)) p
  end.

(** The loop of [g_utf8_strlen (p, -1)]: until [p] points at a NUL,
    [p = g_utf8_next_char (p); ++len;].  [pending] counts the bytes of the
    current sequence still to be stepped over. *)
Fixpoint utf8_strlen_from (pending : nat) (p : string) : Z :=
  match p with
  | EmptyString => 0
  | String c r =>
      match pending with
      | S k => utf8_strlen_from k r
      | O =>
          if byte_val c =? 0 then 0
          else 1 + utf8_strlen_from (pred (g_utf8_skip (byte_val c))) r
      end
  end.

(** [g_utf8_strlen (p, -1)]; a NULL [p] fails the precondition check and
    gives 0. *)
Definition g_utf8_strlen (p : option string) : Z :=
  match p with
  | None => 0
  | Some s => utf8_strlen_from 0 s
  end.

(** [g_utf8_offset_to_pointer (str, offset)] for [offset >= 0]:
    [while (offset--) s = g_utf8_next_char (s);]. *)
Fixpoint g_utf8_offset_to_pointer (str : string) (offset : nat) : string :=
  match offset with
  | O => str
  | S k => g_utf8_offset_to_pointer (g_utf8_next_char str) k
  end.

(** [UTF8_COMPUTE]: the mask and the length of a sequence from its first
    byte; [None] is the macro's [len = -1]. *)
Definition utf8_compute (c : Z) : option (Z * nat) :=
  if c <? 128 then Some (127, 1%nat)
  else if Z.land c 224 =? 192 then Some (31, 2%nat)
  else if Z.land c 240 =? 224 then Some (15, 3%nat)
  else if Z.land c 248 =? 240 then Some (7, 4%nat)
  else if Z.land c 252 =? 248 then Some (3, 5%nat)
  else if Z.land c 254 =? 252 then Some (1, 6%nat)
  else None.

(** [UTF8_GET]: folds [count] continuation bytes into [result]; a byte
    that is not a continuation byte (or the end of the buffer) gives
    [(gunichar) -1]. *)
Fixpoint utf8_get (result : Z) (p : string) (count : nat) : Z :=
  match count with
  | O => result
  | S k =>
      match p with
      | EmptyString => to_uint (-1)
      | String c r =>
          if Z.land (byte_val c) 192 =? 128
          then utf8_get (to_uint (Z.lor (Z.shiftl result 6) (Z.land (byte_val c) 63))) r k
          else to_uint (-1)
      end
  end.

(** [g_utf8_get_char (p)], a [gunichar]. *)
Definition g_utf8_get_char (p : string) : Z :=
  match p with
  | EmptyString => 0
  | String c r =>
      match utf8_compute (byte_val c) with
      | None => to_uint (-1)
      | Some (mask, len) => utf8_get (Z.land (byte_val c) mask) r (pred len)
      end
  end.

(** The UTF-8 encoding of a code point, used to relate byte strings to
    the characters they hold. *)
Definition utf8_cont (cp : Z) (k : Z) : ascii :=
  byte_of (128 + Z.land (Z.shiftr cp (6 * k)) 63).

Definition utf8_encode_char (cp : Z) : string :=
  if cp <? 128 then String (byte_of cp) EmptyString
  else if cp <? 2048 then
    String (byte_of (192 + Z.shiftr cp 6)) (String (utf8_cont cp 0) EmptyString)
  else if cp <? 65536 then
    String (byte_of (224 + Z.shiftr cp 12))
      (String (utf8_cont cp 1) (String (utf8_cont cp 0) EmptyString))
  else
    String (byte_of (240 + Z.shiftr cp 18))
      (String (utf8_cont cp 2)
         (String (utf8_cont cp 1) (String (utf8_cont cp 0) EmptyString))).

Fixpoint utf8_encode (cps : list Z) : string :=
  match cps with
  | [] => EmptyString
  | cp :: r => utf8_encode_char cp ++ utf8_encode r
  end.

(** A code point other than NUL, as a text holds them. *)
Definition is_char (cp : Z) : Prop := 0 < cp < 1114112.

(** ** GVariant values and D-Bus replies *)

#[local] Set Warnings "-register-all".

(** The values the handlers unpack and build.  A string child records the
    [char *] handed to [g_variant_new], read as a C string; [None] is a
    [NULL] pointer. *)
Inductive GVariant : Type :=
| GVInt32 (i : Z)
| GVUint32 (u : Z)
| GVString (s : option string)
| GVDict (entries : list (string * string))
| GVTuple (items : list GVariant).

Inductive GDBusError : Type :=
| G_DBUS_ERROR_NOT_SUPPORTED
| G_DBUS_ERROR_INVALID_ARGS.

(** What a handler sends on its [GDBusMethodInvocation]:
    [g_dbus_method_invocation_return_value] or
    [g_dbus_method_invocation_return_error] (and [_literal]) in the
    [G_DBUS_ERROR] domain. *)
Inductive Reply : Type :=
| ReturnValue (v : GVariant)
| ReturnError (code : GDBusError) (message : string).

(** [g_bytes_get_data (bytes, NULL)]: the buffer of a [GBytes], [NULL] for
    a [NULL] one. *)
Definition GBytes : Type := string.
Definition g_bytes_get_data (bytes : option GBytes) : option string := bytes.

(** The ["s"] child of [g_variant_new]. *)
Definition g_variant_new_s (p : option string) : GVariant :=
  GVString (option_map cstr p).

(** [g_variant_get] with the formats the handlers use; [None] when the
    value has another type. *)
Definition g_variant_get_i (v : GVariant) : option Z :=
  match v with
  | GVTuple [GVInt32 a] => Some a
  | _ => None
  end.

Definition g_variant_get_ii (v : GVariant) : option (Z * Z) :=
  match v with
  | GVTuple [GVInt32 a; GVInt32 b] => Some (a, b)
  | _ => None
  end.

Definition g_variant_get_iu (v : GVariant) : option (Z * Z) :=
  match v with
  | GVTuple [GVInt32 a; GVUint32 b] => Some (a, b)
  | _ => None
  end.

Definition g_variant_get_is (v : GVariant) : option (Z * string) :=
  match v with
  | GVTuple [GVInt32 a; GVString (Some s)] => Some (a, s)
  | _ => None
  end.

(** The ["%d"] conversion of the error message. *)
Definition format_d (z : Z) : string := NilZero.string_of_int (Z.to_int z).

(** ** The GtkAccessibleText interface *)

Inductive GtkAccessibleTextGranularity : Type :=
| GTK_ACCESSIBLE_TEXT_GRANULARITY_CHARACTER
| GTK_ACCESSIBLE_TEXT_GRANULARITY_WORD
| GTK_ACCESSIBLE_TEXT_GRANULARITY_SENTENCE
| GTK_ACCESSIBLE_TEXT_GRANULARITY_LINE
| GTK_ACCESSIBLE_TEXT_GRANULARITY_PARAGRAPH.

(** [GtkAccessibleTextRange]: two [gsize] fields. *)
Record GtkAccessibleTextRange : Type := mkRange {
  range_start : Z;
  range_length : Z
}.

(** One entry of the three parallel arrays [ranges], [attr_names] and
    [attr_values] that [gtk_accessible_text_get_attributes] fills; their
    common length is [n_attrs]. *)
Record TextAttribute : Type := mkAttr {
  attr_range : GtkAccessibleTextRange;
  attr_name : string;
  attr_value : string
}.

(** The functions of the interface the handlers call.  Each takes the
    accessible object, of type [T], and gives back its results and the
    object as the call leaves it.  Offsets are [unsigned int];
    [gtk_accessible_text_get_contents_at] gives the [GBytes] pointer and
    its two out-parameters; [gtk_accessible_text_get_selection] and
    [gtk_accessible_text_get_attributes] give the arrays they allocate,
    whose length is the count they store. *)
Class GtkAccessibleText (T : Type) : Type := {
  gtk_accessible_text_get_caret_position : T -> Z * T;
  gtk_accessible_text_get_contents : T -> Z -> Z -> option GBytes * T;
  gtk_accessible_text_get_contents_at :
    T -> Z -> GtkAccessibleTextGranularity -> (option GBytes * Z * Z) * T;
  gtk_accessible_text_get_attributes : T -> Z -> list TextAttribute * T;
  gtk_accessible_text_get_selection : T -> list GtkAccessibleTextRange * T
}.

(** The enumerators of [AtspiTextGranularity].  Their declaration is not
    part of this file's source; the handlers are stated for any values. *)
Class AtspiTextGranularity : Type := {
  ATSPI_TEXT_GRANULARITY_CHAR : Z;
  ATSPI_TEXT_GRANULARITY_WORD : Z;
  ATSPI_TEXT_GRANULARITY_SENTENCE : Z;
  ATSPI_TEXT_GRANULARITY_LINE : Z;
  ATSPI_TEXT_GRANULARITY_PARAGRAPH : Z
}.

(** ** The handlers' effects

    A handler acts on the accessible object, through the interface, and on
    the invocation, by sending a reply.  [calls] logs the interface calls
    with their arguments, [replies] what was sent. *)

Inductive TextCall : Type :=
| CallGetCaretPosition
| CallGetContents (start end_ : Z)
| CallGetContentsAt (offset : Z) (granularity : GtkAccessibleTextGranularity)
| CallGetAttributes (offset : Z)
| CallGetSelection.

Record World (T : Type) : Type := mkWorld {
  text : T;
  calls : list TextCall;
  replies : list Reply
}.
Arguments mkWorld {T} _ _ _.
Arguments text {T} _.
Arguments calls {T} _.
Arguments replies {T} _.

(** A handler stops early when [g_assert_not_reached] aborts the process,
    or when the parameters do not have the type of the format string. *)
Inductive Failure : Type :=
| AssertNotReached
| BadParameters.

Inductive Result (A : Type) : Type :=
| Done (a : A)
| Failed (f : Failure).
Arguments Done {A} _.
Arguments Failed {A} _.

Definition M (T A : Type) : Type := World T -> Result A * World T.

Definition ret {T A} (a : A) : M T A := fun w => (Done a, w).

Definition bind {T A B} (m : M T A) (k : A -> M T B) : M T B :=
  fun w =>
    match m w with
    | (Done a, w') => k a w'
    | (Failed f, w') => (Failed f, w')
    end.

Definition fail {T A} (f : Failure) : M T A := fun w => (Failed f, w).

Declare Scope handler_scope.
Delimit Scope handler_scope with handler.
Notation "x <- m ;; k" := (bind m (fun x => k))
  (at level 61, m at next level, right associativity) : handler_scope.
Notation "' p <- m ;; k" := (bind m (fun x => match x with p => k end))
  (at level 61, p pattern, m at next level, right associativity) : handler_scope.
Notation "m ;; k" := (bind m (fun _ => k))
  (at level 61, right associativity) : handler_scope.
Local Open Scope handler_scope.

(** Unpacking the parameters. *)
Definition unpack {T A} (r : option A) : M T A :=
  match r with
  | Some a => ret a
  | None => fail BadParameters
  end.

Definition g_dbus_method_invocation_return_value {T} (v : GVariant) : M T unit :=
  fun w => (Done tt, mkWorld (text w) (calls w) (replies w ++ [ReturnValue v])).

Definition g_dbus_method_invocation_return_error {T}
    (code : GDBusError) (message : string) : M T unit :=
  fun w => (Done tt, mkWorld (text w) (calls w) (replies w ++ [ReturnError code message])).

Section Handlers.

Context {T : Type} {accessible_text : GtkAccessibleText T}.
Context {atspi : AtspiTextGranularity}.

(** A call through the interface: run on the object, and logged. *)
Definition call {A} (c : TextCall) (f : T -> A * T) : M T A :=
  fun w =>
    let '(a, t') := f (text w) in
    (Done a, mkWorld t' (calls w ++ [c]) (replies w)).

Definition get_caret_position : M T Z :=
  call CallGetCaretPosition gtk_accessible_text_get_caret_position.

Definition get_contents (start end_ : Z) : M T (option GBytes) :=
  call (CallGetContents start end_)
       (fun t => gtk_accessible_text_get_contents t start end_).

Definition get_contents_at (offset : Z) (g : GtkAccessibleTextGranularity)
  : M T (option GBytes * Z * Z) :=
  call (CallGetContentsAt offset g)
       (fun t => gtk_accessible_text_get_contents_at t offset g).

Definition get_attributes (offset : Z) : M T (list TextAttribute) :=
  call (CallGetAttributes offset)
       (fun t => gtk_accessible_text_get_attributes t offset).

Definition get_selection : M T (list GtkAccessibleTextRange) :=
  call CallGetSelection gtk_accessible_text_get_selection.

(** [atspi_granularity_to_gtk]: the [switch]; its [default] is
    [g_assert_not_reached ()]. *)
Definition atspi_granularity_to_gtk (granularity : Z)
  : option GtkAccessibleTextGranularity :=
  if granularity =? ATSPI_TEXT_GRANULARITY_CHAR
  then Some GTK_ACCESSIBLE_TEXT_GRANULARITY_CHARACTER
  else if granularity =? ATSPI_TEXT_GRANULARITY_WORD
  then Some GTK_ACCESSIBLE_TEXT_GRANULARITY_WORD
  else if granularity =? ATSPI_TEXT_GRANULARITY_SENTENCE
  then Some GTK_ACCESSIBLE_TEXT_GRANULARITY_SENTENCE
  else if granularity =? ATSPI_TEXT_GRANULARITY_LINE
  then Some GTK_ACCESSIBLE_TEXT_GRANULARITY_LINE
  else if granularity =? ATSPI_TEXT_GRANULARITY_PARAGRAPH
  then Some GTK_ACCESSIBLE_TEXT_GRANULARITY_PARAGRAPH
  else None.

(** The [case] labels of that [switch]. *)
Definition enumerators : list Z :=
  [ATSPI_TEXT_GRANULARITY_CHAR; ATSPI_TEXT_GRANULARITY_WORD;
   ATSPI_TEXT_GRANULARITY_SENTENCE; ATSPI_TEXT_GRANULARITY_LINE;
   ATSPI_TEXT_GRANULARITY_PARAGRAPH].

Definition granularity_to_gtk (granularity : Z) : M T GtkAccessibleTextGranularity :=
  match atspi_granularity_to_gtk granularity with
  | Some g => ret g
  | None => fail AssertNotReached
  end.

(** The body of the [GetAttributes] loop: one entry is added to the
    [a{ss}] builder and the two [int] bounds are updated.  In both macros
    the [int] operand is converted to [gsize], and the result is converted
    back on assignment. *)
Definition attributes_step (acc : list (string * string) * Z * Z) (a : TextAttribute)
  : list (string * string) * Z * Z :=
  let '(builder, start, end_) := acc in
  let builder := (builder ++ [(attr_name a, attr_value a)])%list in
  let start := to_int (MAX (to_gsize start) (range_start (attr_range a))) in
  let end_ :=
    to_int (MIN (to_gsize end_)
                (to_gsize (to_gsize start + range_length (attr_range a)))) in
  (builder, start, end_).

Definition attributes_loop (attrs : list TextAttribute)
  : list (string * string) * Z * Z :=
  fold_left attributes_step attrs ([], 0, G_MAXINT).

(** The [GetAttributeValue] loop: the value of the first attribute with
    the given name, the empty string when there is none. *)
Fixpoint attribute_value (attrs : list TextAttribute) (name : string) : string :=
  match attrs with
  | [] => EmptyString
  | a :: rest =>
      if g_strcmp0 (Some (attr_name a)) (Some name) =? 0
      then attr_value a
      else attribute_value rest name
  end.

Definition not_supported (message : string) : M T unit :=
  g_dbus_method_invocation_return_error G_DBUS_ERROR_NOT_SUPPORTED message.

Definition deprecated_message : string :=
  "This method is deprecated in favor of GetStringAtOffset".

(** [accessible_text_handle_method]. *)
Definition accessible_text_handle_method
    (method_name : option string) (parameters : GVariant) : M T unit :=
  let method_is name := g_strcmp0 method_name (Some name) =? 0 in
  if method_is "GetCaretOffset" then
    offset <- get_caret_position ;;
    g_dbus_method_invocation_return_value (GVTuple [GVInt32 (to_int offset)])
  else if method_is "SetCaretOffset" then
    not_supported EmptyString
  else if method_is "GetText" then
    '(start, end_) <- unpack (g_variant_get_ii parameters) ;;
    contents <- get_contents (to_uint start)
                             (if end_ <? 0 then G_MAXUINT else to_uint end_) ;;
    g_dbus_method_invocation_return_value
      (GVTuple [g_variant_new_s (g_bytes_get_data contents)])
  else if method_is "GetTextBeforeOffset" then
    not_supported deprecated_message
  else if method_is "GetTextAtOffset" then
    not_supported deprecated_message
  else if method_is "GetTextAfterOffset" then
    not_supported deprecated_message
  else if method_is "GetCharacterAtOffset" then
    offset <- unpack (g_variant_get_i parameters) ;;
    text <- get_contents (to_uint offset) (to_uint (offset + 1)) ;;
    let ch :=
      match text with
      | Some _ =>
          let str := g_bytes_get_data text in
          if (0 <=? offset) && (offset <? g_utf8_strlen str)
          then match str with
               | Some s => g_utf8_get_char (g_utf8_offset_to_pointer s (Z.to_nat offset))
               | None => 0
               end
          else 0
      | None => 0
      end in
    g_dbus_method_invocation_return_value (GVTuple [GVInt32 (to_int ch)])
  else if method_is "GetStringAtOffset" then
    '(offset, granularity) <- unpack (g_variant_get_iu parameters) ;;
    g <- granularity_to_gtk granularity ;;
    '(bytes, start, end_) <- get_contents_at (to_uint offset) g ;;
    match bytes with
    | None =>
        g_dbus_method_invocation_return_value
          (GVTuple [g_variant_new_s (Some EmptyString); GVInt32 (-1); GVInt32 (-1)])
    | Some _ =>
        g_dbus_method_invocation_return_value
          (GVTuple [g_variant_new_s (g_bytes_get_data bytes);
                    GVInt32 (to_int start); GVInt32 (to_int end_)])
    end
  else if method_is "GetAttributes" then
    offset <- unpack (g_variant_get_i parameters) ;;
    attrs <- get_attributes (to_uint offset) ;;
    let '(builder, start, end_) := attributes_loop attrs in
    g_dbus_method_invocation_return_value
      (GVTuple [GVDict builder; GVInt32 start; GVInt32 end_])
  else if method_is "GetAttributeValue" then
    '(offset, name) <- unpack (g_variant_get_is parameters) ;;
    attrs <- get_attributes (to_uint offset) ;;
    g_dbus_method_invocation_return_value
      (GVTuple [g_variant_new_s (Some (attribute_value attrs name))])
  else if method_is "GetAttributeRun" then
    not_supported EmptyString
  else if method_is "GetDefaultAttributes" || method_is "GetDefaultAttributeSet" then
    not_supported EmptyString
  else if method_is "GetNSelections" then
    ranges <- get_selection ;;
    let n_ranges := Z.of_nat (List.length ranges) in
    g_dbus_method_invocation_return_value (GVTuple [GVInt32 (to_int n_ranges)])
  else if method_is "GetSelection" then
    num <- unpack (g_variant_get_i parameters) ;;
    ranges <- get_selection ;;
    let n_ranges := Z.of_nat (List.length ranges) in
    if (num <? 0) || (to_gsize num >=? n_ranges) then
      g_dbus_method_invocation_return_error G_DBUS_ERROR_INVALID_ARGS
        ("Not a valid selection: " ++ format_d num)
    else
      let r := nth (Z.to_nat num) ranges (mkRange 0 0) in
      let start := to_int (range_start r) in
      let end_ := to_int (to_gsize (to_gsize start + range_length r)) in
      g_dbus_method_invocation_return_value (GVTuple [GVInt32 start; GVInt32 end_])
  else if method_is "AddSelection" then
    not_supported EmptyString
  else if method_is "RemoveSelection" then
    not_supported EmptyString
  else if method_is "SetSelection" then
    not_supported EmptyString
  else if method_is "GetCharacterExtents" then
    not_supported EmptyString
  else if method_is "GetRangeExtents" then
    not_supported EmptyString
  else if method_is "GetBoundedRanges" then
    not_supported EmptyString
  else if method_is "ScrollSubstringTo" then
    not_supported EmptyString
  else if method_is "ScrollSubstringToPoint" then
    not_supported EmptyString
  else
    ret tt.

(** [accessible_text_get_property]; [None] is the [NULL] it returns for
    any other property name. *)
Definition accessible_text_get_property (property_name : option string)
  : M T (option GVariant) :=
  if g_strcmp0 property_name (Some "CharacterCount") =? 0 then
    contents <- get_contents 0 G_MAXUINT ;;
    let str := g_bytes_get_data contents in
    let len := g_utf8_strlen str in
    ret (Some (GVInt32 (to_int len)))
  else if g_strcmp0 property_name (Some "CaretOffset") =? 0 then
    offset <- get_caret_position ;;
    ret (Some (GVInt32 (to_int offset)))
  else
    ret None.

End Handlers.

(** ** What the handlers do to the accessible object *)

Section Effects.

Context {T : Type} {accessible_text : GtkAccessibleText T}.

(** The object after one interface call. *)
Definition run_call (c : TextCall) (t : T) : T :=
  match c with
  | CallGetCaretPosition => snd (gtk_accessible_text_get_caret_position t)
  | CallGetContents start end_ => snd (gtk_accessible_text_get_contents t start end_)
  | CallGetContentsAt offset g => snd (gtk_accessible_text_get_contents_at t offset g)
  | CallGetAttributes offset => snd (gtk_accessible_text_get_attributes t offset)
  | CallGetSelection => snd (gtk_accessible_text_get_selection t)
  end.

(** The object after a sequence of interface calls. *)
Definition replay (cs : list TextCall) (t : T) : T :=
  fold_left (fun t c => run_call c t) cs t.

(** The five functions of the interface are getters: they leave the
    object as it is. *)
Definition getters_read_only : Prop :=
  forall (c : TextCall) (t : T), run_call c t = t.

(** A computation acts on the object through interface calls only, all of
    them logged, and keeps what was logged and sent before it. *)
Definition through_interface {A} (m : M T A) : Prop :=
  forall w, exists cs rs,
    calls (snd (m w)) = (calls w ++ cs)%list /\
    replies (snd (m w)) = (replies w ++ rs)%list /\
    text (snd (m w)) = replay cs (text w).

End Effects.

(** ** Example implementations

    The enumerators numbered in the order of declaration, and a label-like
    widget: a text of Unicode characters with a caret, a selection and a
    list of attributes, whose getters change nothing. *)

#[local] Instance atspi_in_order : AtspiTextGranularity := {
  ATSPI_TEXT_GRANULARITY_CHAR := 0;
  ATSPI_TEXT_GRANULARITY_WORD := 1;
  ATSPI_TEXT_GRANULARITY_SENTENCE := 2;
  ATSPI_TEXT_GRANULARITY_LINE := 3;
  ATSPI_TEXT_GRANULARITY_PARAGRAPH := 4
}.

Record Label : Type := mkLabel {
  label_chars : list Z;
  label_caret : Z;
  label_selection : list GtkAccessibleTextRange;
  label_attributes : list TextAttribute
}.

(** The characters at the offsets of [[start, end_)], in UTF-8. *)
Definition label_substring (l : Label) (start end_ : Z) : string :=
  let n := Z.of_nat (List.length (label_chars l)) in
  let s := Z.min start n in
  let e := Z.min end_ n in
  utf8_encode (firstn (Z.to_nat (e - s)) (skipn (Z.to_nat s) (label_chars l))).

Definition label_contents_at (l : Label) (offset : Z) (g : GtkAccessibleTextGranularity)
  : option GBytes * Z * Z :=
  let n := Z.of_nat (List.length (label_chars l)) in
  if offset <? n then
    match g with
    | GTK_ACCESSIBLE_TEXT_GRANULARITY_CHARACTER =>
        (Some (label_substring l offset (offset + 1)), offset, offset + 1)
    | _ => (Some (label_substring l 0 n), 0, n)
    end
  else (None, 0, 0).

#[local] Instance label_accessible_text : GtkAccessibleText Label := {
  gtk_accessible_text_get_caret_position l := (label_caret l, l);
  gtk_accessible_text_get_contents l start end_ := (Some (label_substring l start end_), l);
  gtk_accessible_text_get_contents_at l offset g := (label_contents_at l offset g, l);
  gtk_accessible_text_get_attributes l _ := (label_attributes l, l);
  gtk_accessible_text_get_selection l := (label_selection l, l)
}.

(** The label "ab", with the caret at 1 and the second character
    selected. *)
Definition label_ab : Label := mkLabel [97; 98] 1 [mkRange 1 1] [].

(** A label of twenty characters; at any offset it reports "weight" on
    [[5, 15)] and then "style" on [[0, 8)]. *)
Definition label_styled : Label :=
  mkLabel (repeat 120 20) 0 []
          [mkAttr (mkRange 5 10) "weight" "bold"; mkAttr (mkRange 0 8) "style" "italic"].

Definition fresh (l : Label) : World Label := mkWorld l [] [].

(** ** Outcomes of an invocation *)

(** The method names the dispatch chain of
    [accessible_text_handle_method] tests, in its order. *)
Definition dispatched_methods : list string :=
  ["GetCaretOffset"; "SetCaretOffset"; "GetText"; "GetTextBeforeOffset";
   "GetTextAtOffset"; "GetTextAfterOffset"; "GetCharacterAtOffset";
   "GetStringAtOffset"; "GetAttributes"; "GetAttributeValue";
   "GetAttributeRun"; "GetDefaultAttributes"; "GetDefaultAttributeSet";
   "GetNSelections"; "GetSelection"; "AddSelection"; "RemoveSelection";
   "SetSelection"; "GetCharacterExtents"; "GetRangeExtents";
   "GetBoundedRanges"; "ScrollSubstringTo"; "ScrollSubstringToPoint"].

(** A computation that makes at most [n] interface calls and answers its
    invocation: exactly one reply when it completes, none when it stops
    early. *)
Definition answers {T} (n : nat) (m : M T unit) : Prop :=
  forall w, exists cs rs,
    calls (snd (m w)) = (calls w ++ cs)%list /\
    replies (snd (m w)) = (replies w ++ rs)%list /\
    (List.length cs <= n)%nat /\
    (match fst (m w) with
     | Done _ => List.length rs = 1%nat
     | Failed _ => rs = []
     end).

(** A computation that never stops at [g_assert_not_reached]. *)
Definition never_asserts {T A} (m : M T A) : Prop :=
  forall w, fst (m w) <> Failed AssertNotReached.

(** Attributes reported in non-decreasing order of the starts of their
    ranges, none before [from]. *)
Fixpoint starts_ascending (from : Z) (attrs : list TextAttribute) : Prop :=
  match attrs with
  | [] => True
  | a :: rest =>
      from <= range_start (attr_range a) /\
      starts_ascending (range_start (attr_range a)) rest
  end.

(** A range whose start, length and end fit an [int]. *)
Definition range_fits (r : GtkAccessibleTextRange) : Prop :=
  0 <= range_start r /\ 0 <= range_length r /\
  range_start r + range_length r < 2 ^ 31.


(** ** Integer conversions *)

Lemma to_int_small (z : Z) : - 2 ^ 31 <= z < 2 ^ 31 -> to_int z = z.
Proof.
  intros H. unfold to_int.
  rewrite Z.mod_small; lia.
Qed.

Lemma to_uint_small (z : Z) : 0 <= z < 2 ^ 32 -> to_uint z = z.
Proof. intros H. unfold to_uint. apply Z.mod_small. exact H. Qed.

Lemma to_gsize_small (z : Z) : 0 <= z < 2 ^ 64 -> to_gsize z = z.
Proof. intros H. unfold to_gsize. apply Z.mod_small. exact H. Qed.

Lemma to_int_range (z : Z) : - 2 ^ 31 <= to_int z < 2 ^ 31.
Proof.
  unfold to_int.
  pose proof (Z.mod_pos_bound (z + 2 ^ 31) (2 ^ 32) ltac:(lia)). lia.
Qed.

(** [to_int] only depends on the residue modulo [2 ^ 32]. *)
Lemma to_int_congr (a b k : Z) : a = b + k * 2 ^ 32 -> to_int a = to_int b.
Proof.
  intros ->. unfold to_int.
  replace (b + k * 2 ^ 32 + 2 ^ 31) with (b + 2 ^ 31 + k * 2 ^ 32) by ring.
  rewrite Z.mod_add by lia. reflexivity.
Qed.

Lemma to_gsize_residue (z : Z) : exists k, to_gsize z = z + k * 2 ^ 32.
Proof.
  unfold to_gsize. exists (- (z / 2 ^ 64) * 2 ^ 32).
  pose proof (Z.div_mod z (2 ^ 64) ltac:(lia)). lia.
Qed.

Lemma to_int_residue (z : Z) : exists k, to_int z = z + k * 2 ^ 32.
Proof.
  unfold to_int. exists (- ((z + 2 ^ 31) / 2 ^ 32)).
  pose proof (Z.div_mod (z + 2 ^ 31) (2 ^ 32) ltac:(lia)). lia.
Qed.

(** The [int] that [start + length] is stored into, when [start] was
    itself stored into an [int] first. *)
Lemma to_int_gsize_sum (s l : Z) :
  to_int (to_gsize (to_gsize (to_int s) + l)) = to_int (s + l).
Proof.
  destruct (to_int_residue s) as [k1 E1].
  destruct (to_gsize_residue (to_int s)) as [k2 E2].
  destruct (to_gsize_residue (to_gsize (to_int s) + l)) as [k3 E3].
  apply (to_int_congr _ _ (k1 + k2 + k3)). lia.
Qed.

(** ** String comparison *)

Lemma string_compare_refl (x : string) : String.compare x x = Eq.
Proof.
  pose proof (String.compare_antisym x x) as H.
  destruct (String.compare x x); simpl in H; congruence.
Qed.

Lemma g_strcmp0_eq (a b : option string) : g_strcmp0 a b = 0 <-> a = b.
Proof.
  destruct a as [x|], b as [y|]; simpl; try (split; [lia | discriminate]).
  - destruct (String.compare x y) eqn:E.
    + apply String.compare_eq_iff in E. subst. tauto.
    + split; [lia | ]. intros [= ->].
      rewrite string_compare_refl in E. discriminate.
    + split; [lia | ]. intros [= ->].
      rewrite string_compare_refl in E. discriminate.
  - tauto.
Qed.

Lemma g_strcmp0_neq (a b : option string) : a <> b -> (g_strcmp0 a b =? 0) = false.
Proof.
  intros H. apply Z.eqb_neq. intros E. apply H. apply g_strcmp0_eq. exact E.
Qed.

(** ** Replies of [accessible_text_handle_method] *)

Section Replies.

Context {T : Type} {accessible_text : GtkAccessibleText T}.
Context {atspi : AtspiTextGranularity}.

(** C1.  Each of the fifteen stubbed methods is answered by one
    [G_DBUS_ERROR_NOT_SUPPORTED] error, whatever the parameters are; the
    accessible object is not called (the call log does not grow) and is
    left as it was. *)
Theorem unsupported_methods_reply
    (m : string) (parameters : GVariant) (w : World T) :
  In m ["SetCaretOffset"; "GetTextBeforeOffset"; "GetTextAtOffset";
        "GetTextAfterOffset"; "GetAttributeRun"; "GetDefaultAttributes";
        "GetDefaultAttributeSet"; "AddSelection"; "RemoveSelection";
        "SetSelection"; "GetCharacterExtents"; "GetRangeExtents";
        "GetBoundedRanges"; "ScrollSubstringTo"; "ScrollSubstringToPoint"] ->
  exists message,
    accessible_text_handle_method (Some m) parameters w =
    (Done tt,
     mkWorld (text w) (calls w)
             (replies w ++ [ReturnError G_DBUS_ERROR_NOT_SUPPORTED message])).
Proof.
  intros H. simpl in H.
  repeat destruct H as [<- | H]; try (eexists; reflexivity); contradiction.
Qed.

(** C3.  [GetText (start, end)] asks the accessible object for its
    contents once, from [start] (as an [unsigned int]) to [end] when [end]
    is not negative and to [G_MAXUINT] when it is, and replies with the
    string of the bytes it got. *)
Theorem GetText_reply (start end_ : Z) (w : World T) :
  - 2 ^ 31 <= end_ < 2 ^ 31 ->
  let bound := if end_ <? 0 then G_MAXUINT else end_ in
  let r := gtk_accessible_text_get_contents (text w) (to_uint start) bound in
  accessible_text_handle_method (Some "GetText")
    (GVTuple [GVInt32 start; GVInt32 end_]) w =
  (Done tt,
   mkWorld (snd r)
           (calls w ++ [CallGetContents (to_uint start) bound])
           (replies w ++ [ReturnValue (GVTuple [GVString (option_map cstr (fst r))])])).
Proof.
  intros Hend bound r. subst r bound.
  unfold accessible_text_handle_method. simpl.
  unfold bind, get_contents, call. simpl.
  assert (E : (if end_ <? 0 then G_MAXUINT else to_uint end_) =
              (if end_ <? 0 then G_MAXUINT else end_)).
  { destruct (Z.ltb_spec end_ 0); [reflexivity | apply to_uint_small; lia]. }
  rewrite E.
  destruct (gtk_accessible_text_get_contents _ _ _) as [contents t'].
  reflexivity.
Qed.

(** C4.  [GetStringAtOffset (offset, granularity)], for a granularity
    that [atspi_granularity_to_gtk] converts: the reply is the empty string with -1 and -1
    when [gtk_accessible_text_get_contents_at] gives no contents, and
    otherwise the string it gives with the two offsets it stores. *)
Theorem GetStringAtOffset_reply
    (offset granularity : Z) (g : GtkAccessibleTextGranularity) (w : World T) :
  atspi_granularity_to_gtk granularity = Some g ->
  let r := gtk_accessible_text_get_contents_at (text w) (to_uint offset) g in
  let '(bytes, start, end_) := fst r in
  accessible_text_handle_method (Some "GetStringAtOffset")
    (GVTuple [GVInt32 offset; GVUint32 granularity]) w =
  (Done tt,
   mkWorld (snd r)
           (calls w ++ [CallGetContentsAt (to_uint offset) g])
           (replies w ++
            [ReturnValue
               match bytes with
               | None => GVTuple [GVString (Some EmptyString); GVInt32 (-1); GVInt32 (-1)]
               | Some b =>
                   GVTuple [GVString (Some (cstr b));
                            GVInt32 (to_int start); GVInt32 (to_int end_)]
               end])).
Proof.
  intros Hg r. subst r.
  unfold accessible_text_handle_method. simpl.
  unfold bind, granularity_to_gtk, get_contents_at, call. simpl.
  rewrite Hg. simpl.
  destruct (gtk_accessible_text_get_contents_at _ _ _) as [[[bytes start] end_] t'].
  simpl. destruct bytes; reflexivity.
Qed.

(** C5.  [GetSelection (num)] sends one reply: a
    [G_DBUS_ERROR_INVALID_ARGS] error exactly when [num] is negative or
    not below the number of ranges the accessible object reports, and
    otherwise the pair (start, start + length) of the range at index
    [num], as [int]s. *)
Theorem GetSelection_reply (num : Z) (w : World T) :
  - 2 ^ 31 <= num < 2 ^ 31 ->
  let r := gtk_accessible_text_get_selection (text w) in
  let ranges := fst r in
  let n_ranges := Z.of_nat (List.length ranges) in
  exists reply,
    accessible_text_handle_method (Some "GetSelection") (GVTuple [GVInt32 num]) w =
    (Done tt, mkWorld (snd r) (calls w ++ [CallGetSelection]) (replies w ++ [reply]))
    /\ ((exists message, reply = ReturnError G_DBUS_ERROR_INVALID_ARGS message)
        <-> num < 0 \/ num >= n_ranges)
    /\ (0 <= num < n_ranges ->
        exists range,
          nth_error ranges (Z.to_nat num) = Some range /\
          reply = ReturnValue
                    (GVTuple [GVInt32 (to_int (range_start range));
                              GVInt32 (to_int (range_start range + range_length range))])).
Proof.
  intros Hnum r ranges n_ranges. subst n_ranges ranges r.
  unfold accessible_text_handle_method. simpl.
  unfold bind, unpack, get_selection, call. simpl.
  destruct (gtk_accessible_text_get_selection (text w)) as [ranges t']. simpl.
  destruct (Z.ltb_spec num 0) as [Hneg | Hpos]; simpl.
  - eexists. split; [reflexivity | ]. split.
    + split; [intros _; lia | intros _; eexists; reflexivity].
    + intros Hin. lia.
  - rewrite (to_gsize_small num) by lia.
    destruct (Z.geb_spec num (Z.of_nat (List.length ranges))) as [Hge | Hlt]; simpl.
    + eexists. split; [reflexivity | ]. split.
      * split; [intros _; lia | intros _; eexists; reflexivity].
      * intros Hin. lia.
    + eexists. split; [reflexivity | ]. split.
      * split; [intros [message E]; discriminate E | lia].
      * intros _.
        assert (Hnth : (Z.to_nat num < List.length ranges)%nat) by lia.
        destruct (nth_error ranges (Z.to_nat num)) as [range | ] eqn:E.
        -- exists range. split; [reflexivity | ].
           rewrite (nth_error_nth _ _ _ E), to_int_gsize_sum. reflexivity.
        -- apply nth_error_None in E. lia.
Qed.

(** C6.  A method name that the dispatch chain does not test gets no
    reply and no error: the handler returns with the invocation, the call
    log and the accessible object untouched. *)
Theorem unknown_method_no_reply
    (method_name : option string) (parameters : GVariant) (w : World T) :
  ~ In method_name
       (map Some
          ["GetCaretOffset"; "SetCaretOffset"; "GetText"; "GetTextBeforeOffset";
           "GetTextAtOffset"; "GetTextAfterOffset"; "GetCharacterAtOffset";
           "GetStringAtOffset"; "GetAttributes"; "GetAttributeValue";
           "GetAttributeRun"; "GetDefaultAttributes"; "GetDefaultAttributeSet";
           "GetNSelections"; "GetSelection"; "AddSelection"; "RemoveSelection";
           "SetSelection"; "GetCharacterExtents"; "GetRangeExtents";
           "GetBoundedRanges"; "ScrollSubstringTo"; "ScrollSubstringToPoint"]) ->
  accessible_text_handle_method method_name parameters w = (Done tt, w).
Proof.
  intros H. unfold accessible_text_handle_method.
  repeat match goal with
         | |- context [g_strcmp0 method_name (Some ?s) =? 0] =>
             rewrite (g_strcmp0_neq method_name (Some s))
               by (intros ->; apply H; simpl; tauto)
         end.
  reflexivity.
Qed.

End Replies.

(** ** The handlers act on the object through the interface only *)

Section Frame.

Context {T : Type} {accessible_text : GtkAccessibleText T}.
Context {atspi : AtspiTextGranularity}.

Lemma replay_app (cs cs' : list TextCall) (t : T) :
  replay (cs ++ cs') t = replay cs' (replay cs t).
Proof. unfold replay. apply fold_left_app. Qed.

Lemma replay_read_only (cs : list TextCall) (t : T) :
  getters_read_only -> replay cs t = t.
Proof.
  intros Hro. revert t.
  induction cs as [ | c cs IH]; intros t; [reflexivity | ].
  simpl. rewrite Hro. apply IH.
Qed.

Lemma through_ret {A} (a : A) : through_interface (ret a).
Proof.
  intros w. exists [], []. simpl. rewrite !app_nil_r. auto.
Qed.

Lemma through_fail {A} (f : Failure) : through_interface (@fail T A f).
Proof.
  intros w. exists [], []. simpl. rewrite !app_nil_r. auto.
Qed.

Lemma through_bind {A B} (m : M T A) (k : A -> M T B) :
  through_interface m ->
  (forall a, through_interface (k a)) ->
  through_interface (bind m k).
Proof.
  intros Hm Hk w. unfold bind.
  destruct (Hm w) as (cs & rs & Hc & Hr & Ht).
  destruct (m w) as [[a | f] w']; simpl in *.
  - destruct (Hk a w') as (cs' & rs' & Hc' & Hr' & Ht').
    exists (cs ++ cs')%list, (rs ++ rs')%list.
    rewrite Hc', Hr', Ht', Hc, Hr, Ht, replay_app, !app_assoc. auto.
  - exists cs, rs. auto.
Qed.

Lemma through_call {A} (c : TextCall) (f : T -> A * T) :
  (forall t, snd (f t) = run_call c t) ->
  through_interface (call c f).
Proof.
  intros Hf w. exists [c], []. unfold call.
  specialize (Hf (text w)). destruct (f (text w)) as [a t']. simpl in *.
  rewrite app_nil_r. subst t'. auto.
Qed.

Lemma through_return_value (v : GVariant) :
  through_interface (@g_dbus_method_invocation_return_value T v).
Proof. intros w. exists [], [ReturnValue v]. simpl. rewrite app_nil_r. auto. Qed.

Lemma through_return_error (code : GDBusError) (message : string) :
  through_interface (@g_dbus_method_invocation_return_error T code message).
Proof.
  intros w. exists [], [ReturnError code message]. simpl. rewrite app_nil_r. auto.
Qed.

Lemma through_unpack {A} (r : option A) : through_interface (@unpack T A r).
Proof. destruct r; [apply through_ret | apply through_fail]. Qed.

Lemma through_granularity (granularity : Z) :
  through_interface (granularity_to_gtk granularity).
Proof.
  unfold granularity_to_gtk.
  destruct (atspi_granularity_to_gtk granularity); [apply through_ret | apply through_fail].
Qed.

Create HintDb interface.
#[local] Hint Resolve through_ret through_fail through_return_value
  through_return_error through_unpack through_granularity : interface.

Ltac through :=
  repeat first
    [ solve [auto with interface]
    | apply through_call; intros; reflexivity
    | apply through_bind; [ | intros ? ]
    | match goal with
      | |- through_interface (if ?b then _ else _) => destruct b
      | |- through_interface (match ?x with _ => _ end) => destruct x
      end ].

Lemma handle_method_through_interface
    (method_name : option string) (parameters : GVariant) :
  through_interface (accessible_text_handle_method method_name parameters).
Proof.
  unfold accessible_text_handle_method, not_supported, get_caret_position,
    get_contents, get_contents_at, get_attributes, get_selection.
  through.
Qed.

Lemma get_property_through_interface (property_name : option string) :
  through_interface (accessible_text_get_property property_name).
Proof.
  unfold accessible_text_get_property, get_caret_position, get_contents.
  through.
Qed.

(** C2.  Whatever the method or the property, the handlers reach the
    accessible object through the five getters only: the object they
    leave is the one the logged getter calls leave.  With getters that
    change nothing, the object is unchanged. *)
Theorem handlers_leave_text_unchanged :
  (forall method_name parameters,
      through_interface (accessible_text_handle_method method_name parameters)) /\
  (forall property_name,
      through_interface (accessible_text_get_property property_name)) /\
  (getters_read_only ->
   forall w : World T,
     (forall method_name parameters,
         text (snd (accessible_text_handle_method method_name parameters w)) = text w) /\
     (forall property_name,
         text (snd (accessible_text_get_property property_name w)) = text w)).
Proof.
  split; [exact handle_method_through_interface | ].
  split; [exact get_property_through_interface | ].
  intros Hro w. split.
  - intros m p.
    destruct (handle_method_through_interface m p w) as (cs & rs & _ & _ & Ht).
    rewrite Ht. apply replay_read_only, Hro.
  - intros p.
    destruct (get_property_through_interface p w) as (cs & rs & _ & _ & Ht).
    rewrite Ht. apply replay_read_only, Hro.
Qed.

End Frame.

(** ** Characters and bytes *)

Lemma byte_val_of (z : Z) : 0 <= z < 256 -> byte_val (byte_of z) = z.
Proof.
  intros H. unfold byte_val, byte_of.
  rewrite Z.mod_small by exact H.
  rewrite N_ascii_embedding by lia.
  apply Z2N.id. lia.
Qed.

Lemma shiftr_bounds (cp k lo hi : Z) :
  0 <= k -> lo * 2 ^ k <= cp < hi * 2 ^ k -> lo <= Z.shiftr cp k < hi.
Proof.
  intros Hk [Hlo Hhi]. rewrite Z.shiftr_div_pow2 by exact Hk.
  assert (0 < 2 ^ k) by (apply Z.pow_pos_nonneg; lia).
  split.
  - apply Z.div_le_lower_bound; lia.
  - apply Z.div_lt_upper_bound; lia.
Qed.

(** A character takes one step of the [g_utf8_strlen] loop, whatever
    follows it. *)
Lemma utf8_strlen_encode_char (cp : Z) (rest : string) :
  is_char cp ->
  utf8_strlen_from 0 (utf8_encode_char cp ++ rest) = 1 + utf8_strlen_from 0 rest.
Proof.
  intros [Hlo Hhi]. unfold utf8_encode_char.
  destruct (Z.ltb_spec cp 128) as [H1 | H1].
  - cbn [append utf8_strlen_from].
    rewrite byte_val_of by lia.
    destruct (Z.eqb_spec cp 0) as [E | _]; [lia | ].
    unfold g_utf8_skip. destruct (Z.ltb_spec cp 192); [reflexivity | lia].
  - destruct (Z.ltb_spec cp 2048) as [H2 | H2].
    + pose proof (shiftr_bounds cp 6 2 32 ltac:(lia) ltac:(lia)) as B.
      cbn [append utf8_strlen_from].
      rewrite byte_val_of by lia.
      destruct (Z.eqb_spec (192 + Z.shiftr cp 6) 0) as [E | _]; [lia | ].
      unfold g_utf8_skip.
      destruct (Z.ltb_spec (192 + Z.shiftr cp 6) 192); [lia | ].
      destruct (Z.ltb_spec (192 + Z.shiftr cp 6) 224); [reflexivity | lia].
    + destruct (Z.ltb_spec cp 65536) as [H3 | H3].
      * pose proof (shiftr_bounds cp 12 0 16 ltac:(lia) ltac:(lia)) as B.
        cbn [append utf8_strlen_from].
        rewrite byte_val_of by lia.
        destruct (Z.eqb_spec (224 + Z.shiftr cp 12) 0) as [E | _]; [lia | ].
        unfold g_utf8_skip.
        destruct (Z.ltb_spec (224 + Z.shiftr cp 12) 192); [lia | ].
        destruct (Z.ltb_spec (224 + Z.shiftr cp 12) 224); [lia | ].
        destruct (Z.ltb_spec (224 + Z.shiftr cp 12) 240); [reflexivity | lia].
      * pose proof (shiftr_bounds cp 18 0 5 ltac:(lia) ltac:(lia)) as B.
        cbn [append utf8_strlen_from].
        rewrite byte_val_of by lia.
        destruct (Z.eqb_spec (240 + Z.shiftr cp 18) 0) as [E | _]; [lia | ].
        unfold g_utf8_skip.
        destruct (Z.ltb_spec (240 + Z.shiftr cp 18) 192); [lia | ].
        destruct (Z.ltb_spec (240 + Z.shiftr cp 18) 224); [lia | ].
        destruct (Z.ltb_spec (240 + Z.shiftr cp 18) 240); [lia | ].
        destruct (Z.ltb_spec (240 + Z.shiftr cp 18) 248); [reflexivity | lia].
Qed.

(** [g_utf8_strlen] counts the characters of a UTF-8 string, not its
    bytes. *)
Lemma utf8_strlen_encode (cps : list Z) :
  Forall is_char cps ->
  g_utf8_strlen (Some (utf8_encode cps)) = Z.of_nat (List.length cps).
Proof.
  unfold g_utf8_strlen.
  induction 1 as [ | cp cps Hcp _ IH]; [reflexivity | ].
  cbn [utf8_encode List.length].
  rewrite utf8_strlen_encode_char by exact Hcp.
  rewrite IH. lia.
Qed.

(** The decoder on characters of one to four bytes. *)
Example g_utf8_get_char_examples :
  map (fun cp => g_utf8_get_char (utf8_encode_char cp)) [65; 233; 8364; 128512] =
  [65; 233; 8364; 128512].
Proof. vm_compute. reflexivity. Qed.

Example g_utf8_strlen_examples :
  g_utf8_strlen (Some (utf8_encode [65; 233; 8364; 128512])) = 4
  /\ String.length (utf8_encode [65; 233; 8364; 128512]) = 10%nat.
Proof. split; vm_compute; reflexivity. Qed.

Section Properties.

Context {T : Type} {accessible_text : GtkAccessibleText T}.
Context {atspi : AtspiTextGranularity}.

(** C7.  Reading [CharacterCount] asks the accessible object for its
    whole contents, from 0 to [G_MAXUINT], and returns their
    [g_utf8_strlen] as an [int32]; for contents that are the UTF-8 form of
    a list of characters this is the number of characters, not of
    bytes. *)
Theorem CharacterCount_property (w : World T) :
  let r := gtk_accessible_text_get_contents (text w) 0 G_MAXUINT in
  accessible_text_get_property (Some "CharacterCount") w =
  (Done (Some (GVInt32 (to_int (g_utf8_strlen (fst r))))),
   mkWorld (snd r) (calls w ++ [CallGetContents 0 G_MAXUINT]) (replies w))
  /\ (forall cps : list Z,
         Forall is_char cps ->
         fst r = Some (utf8_encode cps) ->
         g_utf8_strlen (fst r) = Z.of_nat (List.length cps)).
Proof.
  intros r. subst r. split.
  - unfold accessible_text_get_property. simpl.
    unfold bind, get_contents, call.
    destruct (gtk_accessible_text_get_contents (text w) 0 G_MAXUINT) as [contents t'].
    reflexivity.
  - intros cps Hcps ->. apply utf8_strlen_encode. exact Hcps.
Qed.

End Properties.

(** ** The granularity sent on the wire *)

Section Lookups.

Context {T : Type} {accessible_text : GtkAccessibleText T}.
Context {atspi : AtspiTextGranularity}.

Lemma atspi_granularity_to_gtk_default (granularity : Z) :
  ~ In granularity enumerators -> atspi_granularity_to_gtk granularity = None.
Proof.
  intros H. unfold atspi_granularity_to_gtk.
  repeat match goal with
         | |- context [granularity =? ?c] =>
             destruct (Z.eqb_spec granularity c) as [E | _];
             [exfalso; apply H; rewrite E; unfold enumerators; simpl; tauto | ]
         end.
  reflexivity.
Qed.

(** Five enumerators cannot cover the six values 0 .. 5. *)
Lemma value_outside_enumerators :
  exists granularity, 0 <= granularity <= 5 /\ ~ In granularity enumerators.
Proof.
  destruct (Forall_Exists_dec (fun g => In g enumerators)
              (fun g => in_dec Z.eq_dec g enumerators) [0; 1; 2; 3; 4; 5])
    as [Hall | Hex].
  - exfalso.
    assert (Hnd : NoDup [0; 1; 2; 3; 4; 5]).
    { repeat constructor; simpl; lia. }
    assert (Hincl : incl [0; 1; 2; 3; 4; 5] enumerators).
    { intros g Hg. exact (proj1 (Forall_forall _ _) Hall g Hg). }
    pose proof (NoDup_incl_length Hnd Hincl) as Hlen.
    simpl in Hlen. lia.
  - apply Exists_exists in Hex. destruct Hex as (g & Hg & Hout).
    exists g. split; [simpl in Hg; lia | exact Hout].
Qed.

(** C8.  Some [uint32] granularity, one of 0 .. 5, is none of the five
    enumerators: [atspi_granularity_to_gtk] takes its [default] branch on
    it, and [GetStringAtOffset] with it stops at [g_assert_not_reached]
    before any interface call or reply. *)
Theorem granularity_assertion_reached :
  exists granularity,
    0 <= granularity < 2 ^ 32 /\
    atspi_granularity_to_gtk granularity = None /\
    forall (offset : Z) (w : World T),
      accessible_text_handle_method (Some "GetStringAtOffset")
        (GVTuple [GVInt32 offset; GVUint32 granularity]) w =
      (Failed AssertNotReached, w).
Proof.
  destruct value_outside_enumerators as (g & Hrange & Hout).
  exists g. split; [lia | ].
  pose proof (atspi_granularity_to_gtk_default g Hout) as Hnone.
  split; [exact Hnone | ].
  intros offset w.
  unfold accessible_text_handle_method. simpl.
  unfold bind, granularity_to_gtk. simpl.
  rewrite Hnone. reflexivity.
Qed.

(** ** The character at an offset *)

(** X11.  A negative offset is answered by the code point 0, after one
    call for the contents. *)
Lemma GetCharacterAtOffset_negative (offset : Z) (w : World T) :
  offset < 0 ->
  let r := gtk_accessible_text_get_contents (text w) (to_uint offset) (to_uint (offset + 1)) in
  accessible_text_handle_method (Some "GetCharacterAtOffset") (GVTuple [GVInt32 offset]) w =
  (Done tt,
   mkWorld (snd r)
           (calls w ++ [CallGetContents (to_uint offset) (to_uint (offset + 1))])
           (replies w ++ [ReturnValue (GVTuple [GVInt32 0])])).
Proof.
  intros Hneg r. subst r.
  unfold accessible_text_handle_method. simpl.
  unfold bind, get_contents, call. simpl.
  destruct (gtk_accessible_text_get_contents _ _ _) as [contents t'].
  destruct (Z.leb_spec 0 offset); [lia | ].
  destruct contents; reflexivity.
Qed.

(** The handler looks for the character at index [offset] inside the
    contents of [[offset, offset + 1)]: when these hold at most one
    character, every offset from 1 on is answered by the code point 0. *)
Lemma GetCharacterAtOffset_beyond_first (offset : Z) (w : World T) :
  1 <= offset ->
  let r := gtk_accessible_text_get_contents (text w) (to_uint offset) (to_uint (offset + 1)) in
  g_utf8_strlen (fst r) <= 1 ->
  accessible_text_handle_method (Some "GetCharacterAtOffset") (GVTuple [GVInt32 offset]) w =
  (Done tt,
   mkWorld (snd r)
           (calls w ++ [CallGetContents (to_uint offset) (to_uint (offset + 1))])
           (replies w ++ [ReturnValue (GVTuple [GVInt32 0])])).
Proof.
  intros Hpos r Hlen. subst r.
  unfold accessible_text_handle_method. simpl.
  unfold bind, get_contents, call. simpl.
  destruct (gtk_accessible_text_get_contents _ _ _) as [contents t'].
  simpl in Hlen. unfold g_bytes_get_data.
  destruct contents as [s | ]; [ | reflexivity].
  destruct (Z.ltb_spec offset (g_utf8_strlen (Some s))); [lia | ].
  rewrite andb_false_r. reflexivity.
Qed.

(** ** The attributes at an offset *)

Lemma attributes_loop_nil : attributes_loop [] = ([], 0, G_MAXINT).
Proof. reflexivity. Qed.

Lemma attributes_fold_entries (attrs : list TextAttribute)
    (acc : list (string * string) * Z * Z) :
  fst (fst (fold_left attributes_step attrs acc)) =
  (fst (fst acc) ++ map (fun a => (attr_name a, attr_value a)) attrs)%list.
Proof.
  revert acc. induction attrs as [ | a attrs IH]; intros [[builder start] end_].
  - simpl. rewrite app_nil_r. reflexivity.
  - simpl fold_left. rewrite IH. simpl. rewrite <- app_assoc. reflexivity.
Qed.

(** The entries of the reply are the name and value pairs reported, in
    their order. *)
Lemma attributes_loop_entries (attrs : list TextAttribute) :
  fst (fst (attributes_loop attrs)) = map (fun a => (attr_name a, attr_value a)) attrs.
Proof. unfold attributes_loop. rewrite attributes_fold_entries. reflexivity. Qed.

Lemma MAX_max (a b : Z) : MAX a b = Z.max a b.
Proof. unfold MAX. destruct (Z.gtb_spec a b); lia. Qed.

Lemma attributes_fold_start (attrs : list TextAttribute)
    (builder : list (string * string)) (start end_ : Z) :
  0 <= start < 2 ^ 31 ->
  Forall (fun a => 0 <= range_start (attr_range a) < 2 ^ 31) attrs ->
  snd (fst (fold_left attributes_step attrs (builder, start, end_))) =
  fold_left Z.max (map (fun a => range_start (attr_range a)) attrs) start.
Proof.
  intros Hstart Hall. revert builder start end_ Hstart.
  induction Hall as [ | a attrs Ha _ IH]; intros builder start end_ Hstart.
  - reflexivity.
  - cbn [fold_left map attributes_step].
    rewrite (to_gsize_small start) by lia.
    rewrite MAX_max, to_int_small by lia.
    apply IH. lia.
Qed.

(** The start bound of the reply is the greatest of the reported starts,
    for starts that fit an [int]. *)
Lemma attributes_loop_start (attrs : list TextAttribute) :
  Forall (fun a => 0 <= range_start (attr_range a) < 2 ^ 31) attrs ->
  snd (fst (attributes_loop attrs)) =
  fold_left Z.max (map (fun a => range_start (attr_range a)) attrs) 0.
Proof. intros H. unfold attributes_loop. apply attributes_fold_start; [lia | exact H]. Qed.

End Lookups.

(** With the enumerators numbered from 0, the granularity 5 reaches the
    assertion. *)
Example GetStringAtOffset_granularity_5 :
  accessible_text_handle_method (Some "GetStringAtOffset")
    (GVTuple [GVInt32 0; GVUint32 5]) (fresh label_ab) =
  (Failed AssertNotReached, fresh label_ab).
Proof. vm_compute. reflexivity. Qed.

(** Offset 0 is the one offset whose character is found. *)
Example GetCharacterAtOffset_first_character :
  accessible_text_handle_method (Some "GetCharacterAtOffset")
    (GVTuple [GVInt32 0]) (fresh label_ab) =
  (Done tt,
   mkWorld label_ab [CallGetContents 0 1] [ReturnValue (GVTuple [GVInt32 97])]).
Proof. vm_compute. reflexivity. Qed.

(** C9.  On the label "ab", [GetCharacterAtOffset (1)] is answered by the
    code point 0, although offset 1 is a valid index and the character
    there is "b", code point 98: the handler fetches the contents of
    [[1, 2)], the one-character string "b", and then requires the offset
    to be below the length of that string. *)
Theorem GetCharacterAtOffset_second_character :
  accessible_text_handle_method (Some "GetCharacterAtOffset")
    (GVTuple [GVInt32 1]) (fresh label_ab) =
  (Done tt,
   mkWorld label_ab [CallGetContents 1 2] [ReturnValue (GVTuple [GVInt32 0])])
  /\ fst (gtk_accessible_text_get_contents label_ab 1 2) = Some "b"
  /\ fst (gtk_accessible_text_get_contents label_ab 0 G_MAXUINT) = Some "ab"
  /\ g_utf8_strlen (Some "ab") = 2
  /\ g_utf8_get_char (g_utf8_offset_to_pointer "ab" 1) = 98.
Proof. repeat split; vm_compute; reflexivity. Qed.

(** C10.  On a label that reports "weight" on [[5, 15)] and then "style"
    on [[0, 8)], [GetAttributes] replies with the bounds (5, 13): the
    second range is ended at 5 + 8, the running start plus its length.
    The intersection of the two ranges is [[5, 8)]: the greatest start is
    5 and the least end is 8. *)
Theorem GetAttributes_bounds_of_overlapping_ranges :
  accessible_text_handle_method (Some "GetAttributes")
    (GVTuple [GVInt32 6]) (fresh label_styled) =
  (Done tt,
   mkWorld label_styled [CallGetAttributes 6]
     [ReturnValue
        (GVTuple [GVDict [("weight", "bold"); ("style", "italic")];
                  GVInt32 5; GVInt32 13])])
  /\ map attr_range (label_attributes label_styled) = [mkRange 5 10; mkRange 0 8]
  /\ fold_right Z.max 0
       (map (fun a => range_start (attr_range a)) (label_attributes label_styled)) = 5
  /\ fold_right Z.min G_MAXINT
       (map (fun a => range_start (attr_range a) + range_length (attr_range a))
            (label_attributes label_styled)) = 8.
Proof. repeat split; vm_compute; reflexivity. Qed.

(** ** The theorems at work on the label "ab" *)

Lemma label_getters_read_only : getters_read_only (T := Label).
Proof. intros c t. destruct c; reflexivity. Qed.

Lemma unsupported_methods_reply_witness :
  In "AddSelection"
     ["SetCaretOffset"; "GetTextBeforeOffset"; "GetTextAtOffset";
      "GetTextAfterOffset"; "GetAttributeRun"; "GetDefaultAttributes";
      "GetDefaultAttributeSet"; "AddSelection"; "RemoveSelection";
      "SetSelection"; "GetCharacterExtents"; "GetRangeExtents";
      "GetBoundedRanges"; "ScrollSubstringTo"; "ScrollSubstringToPoint"]
  /\ exists message,
       accessible_text_handle_method (Some "AddSelection")
         (GVTuple [GVInt32 0; GVInt32 1]) (fresh label_ab) =
       (Done tt,
        mkWorld label_ab [] [ReturnError G_DBUS_ERROR_NOT_SUPPORTED message]).
Proof.
  assert (H : In "AddSelection"
     ["SetCaretOffset"; "GetTextBeforeOffset"; "GetTextAtOffset";
      "GetTextAfterOffset"; "GetAttributeRun"; "GetDefaultAttributes";
      "GetDefaultAttributeSet"; "AddSelection"; "RemoveSelection";
      "SetSelection"; "GetCharacterExtents"; "GetRangeExtents";
      "GetBoundedRanges"; "ScrollSubstringTo"; "ScrollSubstringToPoint"]).
  { simpl. do 7 right. left. reflexivity. }
  split; [exact H | ].
  exact (unsupported_methods_reply "AddSelection" (GVTuple [GVInt32 0; GVInt32 1])
           (fresh label_ab) H).
Defined.

Lemma handlers_leave_text_unchanged_witness :
  getters_read_only (T := Label)
  /\ text (snd (accessible_text_handle_method (Some "GetText")
                  (GVTuple [GVInt32 0; GVInt32 (-1)]) (fresh label_ab))) = label_ab
  /\ text (snd (accessible_text_get_property (Some "CaretOffset") (fresh label_ab))) = label_ab.
Proof.
  split; [exact label_getters_read_only | ].
  destruct (proj2 (proj2 handlers_leave_text_unchanged)
              label_getters_read_only (fresh label_ab)) as [Hm Hp].
  split; [apply Hm | apply Hp].
Defined.

Lemma GetText_reply_witness :
  - 2 ^ 31 <= -1 < 2 ^ 31
  /\ accessible_text_handle_method (Some "GetText")
       (GVTuple [GVInt32 0; GVInt32 (-1)]) (fresh label_ab) =
     (Done tt,
      mkWorld label_ab [CallGetContents 0 G_MAXUINT]
              [ReturnValue (GVTuple [GVString (Some "ab")])]).
Proof.
  assert (H : - 2 ^ 31 <= -1 < 2 ^ 31) by lia.
  split; [exact H | ].
  exact (GetText_reply 0 (-1) (fresh label_ab) H).
Defined.

Lemma GetStringAtOffset_reply_witness :
  atspi_granularity_to_gtk 0 = Some GTK_ACCESSIBLE_TEXT_GRANULARITY_CHARACTER
  /\ accessible_text_handle_method (Some "GetStringAtOffset")
       (GVTuple [GVInt32 1; GVUint32 0]) (fresh label_ab) =
     (Done tt,
      mkWorld label_ab
              [CallGetContentsAt 1 GTK_ACCESSIBLE_TEXT_GRANULARITY_CHARACTER]
              [ReturnValue (GVTuple [GVString (Some "b"); GVInt32 1; GVInt32 2])]).
Proof.
  split; [reflexivity | ].
  exact (GetStringAtOffset_reply 1 0 GTK_ACCESSIBLE_TEXT_GRANULARITY_CHARACTER
           (fresh label_ab) eq_refl).
Defined.

Lemma GetSelection_reply_witness :
  - 2 ^ 31 <= 0 < 2 ^ 31
  /\ exists reply,
       accessible_text_handle_method (Some "GetSelection")
         (GVTuple [GVInt32 0]) (fresh label_ab) =
       (Done tt, mkWorld label_ab [CallGetSelection] [reply])
       /\ ((exists message, reply = ReturnError G_DBUS_ERROR_INVALID_ARGS message)
           <-> 0 < 0 \/ 0 >= 1)
       /\ (0 <= 0 < 1 ->
           exists range,
             nth_error [mkRange 1 1] 0 = Some range /\
             reply = ReturnValue
                       (GVTuple [GVInt32 (to_int (range_start range));
                                 GVInt32 (to_int (range_start range + range_length range))])).
Proof.
  assert (H : - 2 ^ 31 <= 0 < 2 ^ 31) by lia.
  split; [exact H | ].
  exact (GetSelection_reply 0 (fresh label_ab) H).
Defined.

Lemma unknown_method_no_reply_witness :
  accessible_text_handle_method (Some "GetOffsetAtPoint")
    (GVTuple [GVInt32 0; GVInt32 0; GVUint32 0]) (fresh label_ab) =
  (Done tt, fresh label_ab).
Proof.
  apply unknown_method_no_reply.
  simpl. intros H.
  repeat (destruct H as [H | H]; [discriminate H | ]).
  exact H.
Defined.

Lemma CharacterCount_property_witness :
  Forall is_char [97; 98]
  /\ accessible_text_get_property (Some "CharacterCount") (fresh label_ab) =
     (Done (Some (GVInt32 2)), mkWorld label_ab [CallGetContents 0 G_MAXUINT] [])
  /\ g_utf8_strlen (fst (gtk_accessible_text_get_contents label_ab 0 G_MAXUINT)) = 2.
Proof.
  assert (H : Forall is_char [97; 98]).
  { repeat constructor; unfold is_char; lia. }
  split; [exact H | ].
  destruct (CharacterCount_property (fresh label_ab)) as [Hreply Hcount].
  split; [exact Hreply | ].
  exact (Hcount [97; 98] H eq_refl).
Defined.

(** ** The caret, the properties and the granularities *)

Section Readings.

Context {T : Type} {accessible_text : GtkAccessibleText T}.
Context {atspi : AtspiTextGranularity}.

(** X1.  The [GetCaretOffset] method and the [CaretOffset] property read the
    caret with one call each and report the same [int]: the caret itself
    below [2 ^ 31], and the caret less [2 ^ 32], a negative number, from
    there on. *)
Theorem caret_method_and_property_agree (parameters : GVariant) (w : World T) :
  let r := gtk_accessible_text_get_caret_position (text w) in
  0 <= fst r < 2 ^ 32 ->
  let reported := if fst r <? 2 ^ 31 then fst r else fst r - 2 ^ 32 in
  accessible_text_handle_method (Some "GetCaretOffset") parameters w =
  (Done tt,
   mkWorld (snd r) (calls w ++ [CallGetCaretPosition])
           (replies w ++ [ReturnValue (GVTuple [GVInt32 reported])]))
  /\ accessible_text_get_property (Some "CaretOffset") w =
     (Done (Some (GVInt32 reported)),
      mkWorld (snd r) (calls w ++ [CallGetCaretPosition]) (replies w)).
Proof.
  intros r Hr reported.
  assert (E : to_int (fst r) = reported).
  { subst reported. destruct (Z.ltb_spec (fst r) (2 ^ 31)) as [H | H].
    - apply to_int_small. lia.
    - rewrite (to_int_congr (fst r) (fst r - 2 ^ 32) 1) by lia.
      apply to_int_small. lia. }
  subst r. rewrite <- E. split.
  - unfold accessible_text_handle_method. simpl.
    unfold bind, get_caret_position, call.
    destruct (gtk_accessible_text_get_caret_position (text w)) as [offset t'].
    reflexivity.
  - unfold accessible_text_get_property. simpl.
    unfold bind, get_caret_position, call.
    destruct (gtk_accessible_text_get_caret_position (text w)) as [offset t'].
    reflexivity.
Qed.

(** X2.  [accessible_text_get_property] returns [NULL] exactly for the names
    other than [CharacterCount] and [CaretOffset] (a [NULL] name
    included), and then it has not called the accessible object. *)
Theorem get_property_null (property_name : option string) (w : World T) :
  (fst (accessible_text_get_property property_name w) = Done None <->
   property_name <> Some "CharacterCount" /\ property_name <> Some "CaretOffset")
  /\ (fst (accessible_text_get_property property_name w) = Done None ->
      snd (accessible_text_get_property property_name w) = w).
Proof.
  unfold accessible_text_get_property.
  destruct (Z.eqb_spec (g_strcmp0 property_name (Some "CharacterCount")) 0) as [E1 | E1].
  - apply g_strcmp0_eq in E1.
    unfold bind, get_contents, call.
    destruct (gtk_accessible_text_get_contents (text w) 0 G_MAXUINT) as [contents t'].
    simpl. split; [split | ]; try discriminate. intros [H _]. contradiction.
  - destruct (Z.eqb_spec (g_strcmp0 property_name (Some "CaretOffset")) 0) as [E2 | E2].
    + apply g_strcmp0_eq in E2.
      unfold bind, get_caret_position, call.
      destruct (gtk_accessible_text_get_caret_position (text w)) as [offset t'].
      simpl. split; [split | ]; try discriminate. intros [_ H]. contradiction.
    + simpl. split; [split | ]; try reflexivity.
      intros _. split; intros E; apply g_strcmp0_eq in E; contradiction.
Qed.

Lemma atspi_granularity_to_gtk_case (granularity : Z) :
  In granularity enumerators -> atspi_granularity_to_gtk granularity <> None.
Proof.
  intros H. unfold atspi_granularity_to_gtk.
  repeat match goal with
         | |- context [granularity =? ?c] =>
             destruct (Z.eqb_spec granularity c) as [_ | ?]; [discriminate | ]
         end.
  unfold enumerators in H. simpl in H.
  repeat (destruct H as [H | H]; [congruence | ]). contradiction.
Qed.

(** X3.  The [default] branch of [atspi_granularity_to_gtk] is taken exactly
    on the values that are none of the five [case] labels, and these are
    exactly the granularities on which [GetStringAtOffset] stops at
    [g_assert_not_reached]. *)
Theorem assertion_reached_outside_enumerators (granularity : Z) :
  (atspi_granularity_to_gtk granularity = None <-> ~ In granularity enumerators)
  /\ forall (offset : Z) (w : World T),
       fst (accessible_text_handle_method (Some "GetStringAtOffset")
              (GVTuple [GVInt32 offset; GVUint32 granularity]) w)
       = Failed AssertNotReached
       <-> ~ In granularity enumerators.
Proof.
  assert (Hiff : atspi_granularity_to_gtk granularity = None
                 <-> ~ In granularity enumerators).
  { split.
    - intros E Hin. exact (atspi_granularity_to_gtk_case granularity Hin E).
    - apply atspi_granularity_to_gtk_default. }
  split; [exact Hiff | ].
  intros offset w. rewrite <- Hiff.
  unfold accessible_text_handle_method. simpl.
  unfold bind, granularity_to_gtk, get_contents_at, call. simpl.
  destruct (atspi_granularity_to_gtk granularity) as [g | ]; simpl.
  - destruct (gtk_accessible_text_get_contents_at _ _ _) as [[[bytes start] end_] t'].
    destruct bytes; simpl; split; discriminate.
  - split; reflexivity.
Qed.

(** X4.  With pairwise distinct enumerators, as the labels of a [switch] are,
    each AT-SPI granularity is converted to the GTK granularity of the
    same name. *)
Theorem atspi_granularity_to_gtk_enumerators :
  NoDup enumerators ->
  map atspi_granularity_to_gtk enumerators =
  map Some [GTK_ACCESSIBLE_TEXT_GRANULARITY_CHARACTER;
            GTK_ACCESSIBLE_TEXT_GRANULARITY_WORD;
            GTK_ACCESSIBLE_TEXT_GRANULARITY_SENTENCE;
            GTK_ACCESSIBLE_TEXT_GRANULARITY_LINE;
            GTK_ACCESSIBLE_TEXT_GRANULARITY_PARAGRAPH].
Proof.
  unfold enumerators. intros H.
  repeat match goal with
         | H : NoDup (_ :: _) |- _ => inversion H; clear H; subst
         end.
  simpl in *. unfold atspi_granularity_to_gtk.
  rewrite !Z.eqb_refl.
  repeat match goal with
         | |- context [?a =? ?b] =>
             destruct (Z.eqb_spec a b); [exfalso; intuition congruence | ]
         end.
  reflexivity.
Qed.

End Readings.

Lemma caret_method_and_property_agree_witness :
  0 <= 1 < 2 ^ 32
  /\ accessible_text_handle_method (Some "GetCaretOffset") (GVTuple []) (fresh label_ab) =
     (Done tt,
      mkWorld label_ab [CallGetCaretPosition] [ReturnValue (GVTuple [GVInt32 1])])
  /\ accessible_text_get_property (Some "CaretOffset") (fresh label_ab) =
     (Done (Some (GVInt32 1)), mkWorld label_ab [CallGetCaretPosition] []).
Proof.
  assert (H : 0 <= 1 < 2 ^ 32) by lia.
  split; [exact H | ].
  exact (caret_method_and_property_agree (GVTuple []) (fresh label_ab) H).
Defined.

Lemma atspi_granularity_to_gtk_enumerators_witness :
  NoDup [0; 1; 2; 3; 4]
  /\ map atspi_granularity_to_gtk [0; 1; 2; 3; 4] =
     map Some [GTK_ACCESSIBLE_TEXT_GRANULARITY_CHARACTER;
               GTK_ACCESSIBLE_TEXT_GRANULARITY_WORD;
               GTK_ACCESSIBLE_TEXT_GRANULARITY_SENTENCE;
               GTK_ACCESSIBLE_TEXT_GRANULARITY_LINE;
               GTK_ACCESSIBLE_TEXT_GRANULARITY_PARAGRAPH].
Proof.
  assert (H : NoDup [0; 1; 2; 3; 4]).
  { repeat constructor; simpl; lia. }
  split; [exact H | ].
  exact (atspi_granularity_to_gtk_enumerators (atspi := atspi_in_order) H).
Defined.

(** ** One invocation, one answer *)

Section Answers.

Context {T : Type} {accessible_text : GtkAccessibleText T}.
Context {atspi : AtspiTextGranularity}.

Lemma answers_return_value (n : nat) (v : GVariant) :
  answers n (@g_dbus_method_invocation_return_value T v).
Proof.
  intros w. exists [], [ReturnValue v]. simpl.
  rewrite app_nil_r. repeat split; lia.
Qed.

Lemma answers_return_error (n : nat) (code : GDBusError) (message : string) :
  answers n (@g_dbus_method_invocation_return_error T code message).
Proof.
  intros w. exists [], [ReturnError code message]. simpl.
  rewrite app_nil_r. repeat split; lia.
Qed.

Lemma answers_fail (n : nat) (f : Failure) : answers n (@fail T unit f).
Proof.
  intros w. exists [], []. simpl. rewrite !app_nil_r. repeat split; lia.
Qed.

Lemma answers_unpack_bind {A} (n : nat) (r : option A) (k : A -> M T unit) :
  (forall a, answers n (k a)) -> answers n (bind (unpack r) k).
Proof.
  intros Hk. destruct r as [a | ].
  - exact (Hk a).
  - apply answers_fail.
Qed.

Lemma answers_granularity_bind (n : nat) (granularity : Z)
    (k : GtkAccessibleTextGranularity -> M T unit) :
  (forall g, answers n (k g)) -> answers n (bind (granularity_to_gtk granularity) k).
Proof.
  intros Hk. unfold granularity_to_gtk.
  destruct (atspi_granularity_to_gtk granularity) as [g | ].
  - exact (Hk g).
  - apply answers_fail.
Qed.

Lemma answers_call_bind {A} (c : TextCall) (f : T -> A * T) (k : A -> M T unit) :
  (forall a, answers 0 (k a)) -> answers 1 (bind (call c f) k).
Proof.
  intros Hk w. unfold bind, call.
  destruct (f (text w)) as [a t'].
  destruct (Hk a (mkWorld t' (calls w ++ [c]) (replies w))) as (cs & rs & Hc & Hr & Hn & Hres).
  simpl in Hc, Hr.
  assert (cs = []) by (destruct cs; [reflexivity | simpl in Hn; lia]). subst cs.
  exists [c], rs. rewrite Hc, Hr, app_nil_r.
  repeat split; [simpl; lia | exact Hres].
Qed.

Ltac answer :=
  repeat first
    [ apply answers_return_value
    | apply answers_return_error
    | apply answers_unpack_bind; intros ?
    | apply answers_granularity_bind; intros ?
    | apply answers_call_bind; intros ?
    | match goal with
      | |- answers _ (if ?b then _ else _) => destruct b
      | |- answers _ (match ?x with _ => _ end) => destruct x
      end ].

Lemma dispatched_method_answers (name : string) (parameters : GVariant) :
  In name dispatched_methods ->
  answers 1 (accessible_text_handle_method (Some name) parameters).
Proof.
  intros H. unfold dispatched_methods in H. simpl in H.
  repeat (destruct H as [<- | H];
          [unfold accessible_text_handle_method; simpl;
           unfold not_supported, get_caret_position, get_contents,
             get_contents_at, get_attributes, get_selection;
           answer | ]).
  contradiction.
Qed.

Lemma not_dispatched_returns
    (method_name : option string) (parameters : GVariant) (w : World T) :
  ~ In method_name (map Some dispatched_methods) ->
  accessible_text_handle_method method_name parameters w = (Done tt, w).
Proof.
  intros H. unfold accessible_text_handle_method.
  repeat match goal with
         | |- context [g_strcmp0 method_name (Some ?s) =? 0] =>
             rewrite (g_strcmp0_neq method_name (Some s))
               by (intros ->; apply H; unfold dispatched_methods; simpl; tauto)
         end.
  reflexivity.
Qed.

Lemma option_string_dec (a b : option string) : {a = b} + {a <> b}.
Proof. decide equality. apply string_dec. Qed.

(** X5.  Whatever the method name and the parameters, one run of
    [accessible_text_handle_method] makes at most one interface call and
    never sends two replies.  For a dispatched name it sends exactly one
    reply when it runs to its end and none when it stops early; for any
    other name it completes without a call or a reply. *)
Theorem invocation_answered_at_most_once
    (method_name : option string) (parameters : GVariant) (w : World T) :
  let out := accessible_text_handle_method method_name parameters w in
  exists cs rs,
    calls (snd out) = (calls w ++ cs)%list /\
    replies (snd out) = (replies w ++ rs)%list /\
    (List.length cs <= 1)%nat /\
    (match fst out with
     | Done _ =>
         (In method_name (map Some dispatched_methods) /\ List.length rs = 1%nat)
         \/ (~ In method_name (map Some dispatched_methods) /\ rs = [] /\ cs = [])
     | Failed _ => In method_name (map Some dispatched_methods) /\ rs = []
     end).
Proof.
  intros out. subst out.
  destruct (in_dec option_string_dec method_name (map Some dispatched_methods))
    as [Hin | Hout].
  - pose proof Hin as Hin'.
    apply in_map_iff in Hin'. destruct Hin' as (name & <- & Hname).
    destruct (dispatched_method_answers name parameters Hname w)
      as (cs & rs & Hc & Hr & Hn & Hres).
    exists cs, rs. repeat split; try assumption.
    destruct (fst (accessible_text_handle_method (Some name) parameters w)).
    + left. split; assumption.
    + split; assumption.
  - rewrite (not_dispatched_returns method_name parameters w Hout).
    exists [], []. simpl. rewrite !app_nil_r.
    repeat split; try lia. right. repeat split. exact Hout.
Qed.

Lemma never_asserts_ret {A} (a : A) : never_asserts (@ret T A a).
Proof. intros w. discriminate. Qed.

Lemma never_asserts_unpack {A} (r : option A) : never_asserts (@unpack T A r).
Proof. intros w. destruct r; discriminate. Qed.

Lemma never_asserts_call {A} (c : TextCall) (f : T -> A * T) :
  never_asserts (call c f).
Proof. intros w. unfold call. destruct (f (text w)). discriminate. Qed.

Lemma never_asserts_return_value (v : GVariant) :
  never_asserts (@g_dbus_method_invocation_return_value T v).
Proof. intros w. discriminate. Qed.

Lemma never_asserts_return_error (code : GDBusError) (message : string) :
  never_asserts (@g_dbus_method_invocation_return_error T code message).
Proof. intros w. discriminate. Qed.

Lemma never_asserts_bind {A B} (m : M T A) (k : A -> M T B) :
  never_asserts m -> (forall a, never_asserts (k a)) -> never_asserts (bind m k).
Proof.
  intros Hm Hk w. unfold bind. specialize (Hm w).
  destruct (m w) as [[a | f] w']; simpl in *.
  - apply Hk.
  - intros E. apply Hm. injection E as ->. reflexivity.
Qed.

Ltac quiet :=
  repeat first
    [ apply never_asserts_ret
    | apply never_asserts_unpack
    | apply never_asserts_call
    | apply never_asserts_return_value
    | apply never_asserts_return_error
    | apply never_asserts_bind; [ | intros ? ]
    | match goal with
      | |- never_asserts (if false then _ else ?b) => change (never_asserts b)
      | |- never_asserts (if ?b then _ else _) => destruct b
      | |- never_asserts (match ?x with _ => _ end) => destruct x
      end ].

Lemma other_methods_never_assert
    (method_name : option string) (parameters : GVariant) :
  method_name <> Some "GetStringAtOffset" ->
  never_asserts (accessible_text_handle_method method_name parameters).
Proof.
  intros H. unfold accessible_text_handle_method.
  rewrite (g_strcmp0_neq method_name (Some "GetStringAtOffset")) by exact H.
  unfold not_supported, get_caret_position, get_contents, get_attributes,
    get_selection.
  quiet.
Qed.

Lemma g_variant_get_iu_inv (v : GVariant) (a b : Z) :
  g_variant_get_iu v = Some (a, b) -> v = GVTuple [GVInt32 a; GVUint32 b].
Proof.
  unfold g_variant_get_iu. intros H.
  repeat match type of H with
         | match ?x with _ => _ end = _ => destruct x; try discriminate H
         end.
  injection H as <- <-. reflexivity.
Qed.

(** X6.  [g_assert_not_reached] can be reached in one way only: a
    [GetStringAtOffset] call whose granularity is none of the five
    enumerators.  No other method, and no parameters of another type,
    lead to it. *)
Theorem assertion_only_in_GetStringAtOffset
    (method_name : option string) (parameters : GVariant) (w : World T) :
  fst (accessible_text_handle_method method_name parameters w) = Failed AssertNotReached ->
  method_name = Some "GetStringAtOffset" /\
  exists offset granularity,
    parameters = GVTuple [GVInt32 offset; GVUint32 granularity] /\
    ~ In granularity enumerators.
Proof.
  intros H.
  destruct (option_string_dec method_name (Some "GetStringAtOffset")) as [-> | Hne].
  - split; [reflexivity | ].
    unfold accessible_text_handle_method in H. simpl in H.
    unfold bind, unpack in H.
    destruct (g_variant_get_iu parameters) as [[offset granularity] | ] eqn:E;
      [ | discriminate H].
    apply g_variant_get_iu_inv in E.
    exists offset, granularity. split; [exact E | ].
    intros Hin. simpl in H. unfold granularity_to_gtk in H.
    pose proof (atspi_granularity_to_gtk_case granularity Hin) as Hsome.
    destruct (atspi_granularity_to_gtk granularity) as [g | ]; [ | congruence].
    simpl in H. unfold get_contents_at, call in H.
    destruct (gtk_accessible_text_get_contents_at _ _ _) as [[[bytes start] end_] t'].
    destruct bytes; discriminate H.
  - exfalso. exact (other_methods_never_assert method_name parameters Hne w H).
Qed.

End Answers.

Lemma assertion_only_in_GetStringAtOffset_witness :
  fst (accessible_text_handle_method (Some "GetStringAtOffset")
         (GVTuple [GVInt32 0; GVUint32 5]) (fresh label_ab)) = Failed AssertNotReached
  /\ exists offset granularity,
       GVTuple [GVInt32 0; GVUint32 5] = GVTuple [GVInt32 offset; GVUint32 granularity] /\
       ~ In granularity enumerators.
Proof.
  assert (H : fst (accessible_text_handle_method (Some "GetStringAtOffset")
                     (GVTuple [GVInt32 0; GVUint32 5]) (fresh label_ab))
              = Failed AssertNotReached) by reflexivity.
  split; [exact H | ].
  exact (proj2 (assertion_only_in_GetStringAtOffset _ _ _ H)).
Defined.

(** ** Selections and attributes *)

Section Ranges.

Context {T : Type} {accessible_text : GtkAccessibleText T}.
Context {atspi : AtspiTextGranularity}.

Ltac rejoin :=
  unfold g_dbus_method_invocation_return_error,
    g_dbus_method_invocation_return_value;
  simpl; rewrite <- !app_assoc; reflexivity.

(** X7.  [GetNSelections] followed by [GetSelection (num)], on an object whose
    getters change nothing and that reports fewer than [2 ^ 31] ranges:
    the first reply is the number [n] of ranges, and the second is a value
    rather than an error exactly when [0 <= num < n]. *)
Theorem GetSelection_valid_below_GetNSelections
    (num : Z) (parameters : GVariant) (w : World T) :
  getters_read_only ->
  - 2 ^ 31 <= num < 2 ^ 31 ->
  let n := Z.of_nat (List.length (fst (gtk_accessible_text_get_selection (text w)))) in
  n < 2 ^ 31 ->
  exists reply,
    (accessible_text_handle_method (Some "GetNSelections") parameters ;;
     accessible_text_handle_method (Some "GetSelection") (GVTuple [GVInt32 num])) w =
    (Done tt,
     mkWorld (text w)
             (calls w ++ [CallGetSelection; CallGetSelection])
             (replies w ++ [ReturnValue (GVTuple [GVInt32 n]); reply]))
    /\ ((exists v, reply = ReturnValue v) <-> 0 <= num < n).
Proof.
  intros Hro Hnum n Hn.
  pose proof (Hro CallGetSelection (text w)) as Hsame. simpl in Hsame.
  unfold accessible_text_handle_method. simpl.
  unfold bind, unpack, get_selection, call. simpl.
  subst n.
  destruct (gtk_accessible_text_get_selection (text w)) as [ranges t'] eqn:E.
  simpl in *. subst t'. rewrite E.
  rewrite (to_int_small (Z.of_nat (List.length ranges))) by lia.
  destruct (Z.ltb_spec num 0) as [Hneg | Hpos]; simpl.
  - eexists. split; [rejoin | ].
    split; [intros [v Hv]; discriminate Hv | lia].
  - rewrite (to_gsize_small num) by lia.
    destruct (Z.geb_spec num (Z.of_nat (List.length ranges))) as [Hge | Hlt]; simpl.
    + eexists. split; [rejoin | ].
      split; [intros [v Hv]; discriminate Hv | lia].
    + eexists. split; [rejoin | ].
      split; [lia | intros _; eexists; reflexivity].
Qed.



Lemma MIN_min (a b : Z) : MIN a b = Z.min a b.
Proof. unfold MIN. destruct (Z.ltb_spec a b); lia. Qed.

Lemma fold_min_bounds (l : list Z) (e : Z) :
  0 <= e < 2 ^ 31 -> Forall (fun z => 0 <= z) l ->
  0 <= fold_left Z.min l e < 2 ^ 31.
Proof.
  intros He Hl. revert e He.
  induction Hl as [ | z l Hz _ IH]; intros e He; [exact He | ].
  simpl. apply IH. lia.
Qed.

Lemma attributes_fold_ascending (attrs : list TextAttribute)
    (builder : list (string * string)) (start end_ : Z) :
  0 <= start < 2 ^ 31 ->
  0 <= end_ < 2 ^ 31 ->
  Forall (fun a => range_fits (attr_range a)) attrs ->
  starts_ascending start attrs ->
  fold_left attributes_step attrs (builder, start, end_) =
  ((builder ++ map (fun a => (attr_name a, attr_value a)) attrs)%list,
   fold_left Z.max (map (fun a => range_start (attr_range a)) attrs) start,
   fold_left Z.min
     (map (fun a => range_start (attr_range a) + range_length (attr_range a)) attrs)
     end_).
Proof.
  intros Hstart Hend Hall. revert builder start end_ Hstart Hend.
  induction Hall as [ | a attrs Ha _ IH]; intros builder start end_ Hstart Hend Hasc.
  - simpl. rewrite app_nil_r. reflexivity.
  - destruct Ha as (Hs & Hl & Hsum). destruct Hasc as [Hle Hrest].
    cbn [fold_left map attributes_step].
    rewrite (to_gsize_small start) by lia.
    rewrite MAX_max.
    replace (Z.max start (range_start (attr_range a)))
      with (range_start (attr_range a)) by lia.
    rewrite (to_int_small (range_start (attr_range a))) by lia.
    rewrite (to_gsize_small (range_start (attr_range a))) by lia.
    rewrite (to_gsize_small (range_start (attr_range a) + range_length (attr_range a)))
      by lia.
    rewrite (to_gsize_small end_) by lia.
    rewrite MIN_min, to_int_small by lia.
    rewrite IH by (try assumption; lia).
    rewrite <- app_assoc. simpl.
    replace (Z.max start (range_start (attr_range a)))
      with (range_start (attr_range a)) by lia.
    reflexivity.
Qed.

(** X9.  [GetAttributes] on attributes reported in non-decreasing order of
    their range starts (all with the same range, for one), with ranges
    that fit an [int]: the bounds of the reply are the intersection of the
    ranges, from the greatest start to the least end. *)
Theorem GetAttributes_ascending_ranges (offset : Z) (w : World T) :
  let r := gtk_accessible_text_get_attributes (text w) (to_uint offset) in
  Forall (fun a => range_fits (attr_range a)) (fst r) ->
  starts_ascending 0 (fst r) ->
  accessible_text_handle_method (Some "GetAttributes") (GVTuple [GVInt32 offset]) w =
  (Done tt,
   mkWorld (snd r)
     (calls w ++ [CallGetAttributes (to_uint offset)])
     (replies w ++
      [ReturnValue
         (GVTuple
            [GVDict (map (fun a => (attr_name a, attr_value a)) (fst r));
             GVInt32 (fold_left Z.max
                        (map (fun a => range_start (attr_range a)) (fst r)) 0);
             GVInt32 (fold_left Z.min
                        (map (fun a => range_start (attr_range a)
                                       + range_length (attr_range a)) (fst r))
                        G_MAXINT)])])).
Proof.
  intros r Hfits Hasc. subst r.
  unfold accessible_text_handle_method. simpl.
  unfold bind, get_attributes, call. simpl.
  destruct (gtk_accessible_text_get_attributes (text w) (to_uint offset)) as [attrs t'].
  simpl in Hfits, Hasc. unfold attributes_loop.
  rewrite attributes_fold_ascending by (try assumption; unfold G_MAXINT; lia).
  reflexivity.
Qed.

(** X10.  [GetAttributes] in general: the dictionary of the reply holds the
    name and value pairs reported, in their order; with no attribute the
    bounds are 0 and [G_MAXINT]; and with starts that fit an [int] the
    start bound is the greatest of them. *)
Theorem GetAttributes_entries_and_start (offset : Z) (w : World T) :
  let r := gtk_accessible_text_get_attributes (text w) (to_uint offset) in
  exists start end_,
    accessible_text_handle_method (Some "GetAttributes") (GVTuple [GVInt32 offset]) w =
    (Done tt,
     mkWorld (snd r)
       (calls w ++ [CallGetAttributes (to_uint offset)])
       (replies w ++
        [ReturnValue
           (GVTuple [GVDict (map (fun a => (attr_name a, attr_value a)) (fst r));
                     GVInt32 start; GVInt32 end_])]))
    /\ (fst r = [] -> start = 0 /\ end_ = G_MAXINT)
    /\ (Forall (fun a => 0 <= range_start (attr_range a) < 2 ^ 31) (fst r) ->
        start = fold_left Z.max (map (fun a => range_start (attr_range a)) (fst r)) 0).
Proof.
  intros r. subst r.
  unfold accessible_text_handle_method. simpl.
  unfold bind, get_attributes, call. simpl.
  destruct (gtk_accessible_text_get_attributes (text w) (to_uint offset)) as [attrs t'].
  simpl.
  pose proof (attributes_loop_entries attrs) as Hentries.
  pose proof (attributes_loop_start attrs) as Hstart.
  destruct (attributes_loop attrs) as [[builder start] end_] eqn:E.
  simpl in Hentries, Hstart. subst builder.
  exists start, end_. split; [reflexivity | ]. split.
  - intros ->. rewrite attributes_loop_nil in E. injection E as <- <-. auto.
  - exact Hstart.
Qed.

End Ranges.

Lemma GetSelection_valid_below_GetNSelections_witness :
  getters_read_only (T := Label)
  /\ - 2 ^ 31 <= 0 < 2 ^ 31
  /\ 1 < 2 ^ 31
  /\ exists reply,
       (accessible_text_handle_method (Some "GetNSelections") (GVTuple []) ;;
        accessible_text_handle_method (Some "GetSelection") (GVTuple [GVInt32 0]))
         (fresh label_ab) =
       (Done tt,
        mkWorld label_ab [CallGetSelection; CallGetSelection]
                [ReturnValue (GVTuple [GVInt32 1]); reply])
       /\ ((exists v, reply = ReturnValue v) <-> 0 <= 0 < 1).
Proof.
  assert (H1 : - 2 ^ 31 <= 0 < 2 ^ 31) by lia.
  assert (H2 : 1 < 2 ^ 31) by lia.
  split; [exact label_getters_read_only | ].
  split; [exact H1 | ]. split; [exact H2 | ].
  exact (GetSelection_valid_below_GetNSelections 0 (GVTuple []) (fresh label_ab)
           label_getters_read_only H1 H2).
Defined.

Lemma GetAttributes_ascending_ranges_witness :
  let l := mkLabel (repeat 120 20) 0 []
             [mkAttr (mkRange 2 10) "weight" "bold";
              mkAttr (mkRange 5 3) "style" "italic"] in
  Forall (fun a => range_fits (attr_range a)) (label_attributes l)
  /\ starts_ascending 0 (label_attributes l)
  /\ accessible_text_handle_method (Some "GetAttributes") (GVTuple [GVInt32 6]) (fresh l) =
     (Done tt,
      mkWorld l [CallGetAttributes 6]
        [ReturnValue
           (GVTuple [GVDict [("weight", "bold"); ("style", "italic")];
                     GVInt32 5; GVInt32 8])]).
Proof.
  intros l.
  assert (H1 : Forall (fun a => range_fits (attr_range a)) (label_attributes l)).
  { repeat constructor; simpl; lia. }
  assert (H2 : starts_ascending 0 (label_attributes l)).
  { simpl. lia. }
  split; [exact H1 | ]. split; [exact H2 | ].
  exact (GetAttributes_ascending_ranges 6 (fresh l) H1 H2).
Defined.

(** ** Decoding UTF-8 *)

Lemma range_check (P : Z -> bool) (n : nat) :
  forallb P (map Z.of_nat (seq 0 n)) = true ->
  forall y, 0 <= y < Z.of_nat n -> P y = true.
Proof.
  intros H y Hy.
  apply (proj1 (forallb_forall P _) H).
  apply in_map_iff. exists (Z.to_nat y). split; [lia | ].
  apply in_seq. lia.
Qed.

Lemma continuation_byte (y : Z) :
  0 <= y < 64 -> Z.land (128 + y) 192 = 128 /\ Z.land (128 + y) 63 = y.
Proof.
  intros Hy.
  pose proof (range_check
                (fun y => (Z.land (128 + y) 192 =? 128) && (Z.land (128 + y) 63 =? y))
                64 eq_refl y Hy) as H.
  apply andb_true_iff in H. destruct H as [H1 H2].
  split; apply Z.eqb_eq; assumption.
Qed.

Lemma lor_shiftl_6 (r y : Z) :
  0 <= y < 64 -> Z.lor (Z.shiftl r 6) y = r * 64 + y.
Proof.
  intros Hy. rewrite Z.shiftl_mul_pow2 by lia.
  assert (Hland : Z.land (r * 2 ^ 6) y = 0).
  { apply Z.bits_inj'. intros n Hn.
    rewrite Z.land_spec, Z.bits_0.
    destruct (Z.ltb_spec n 6) as [Hlt | Hge].
    - rewrite Z.mul_pow2_bits_low by lia. reflexivity.
    - destruct (Z.eq_dec y 0) as [-> | Hne].
      + rewrite Z.bits_0. apply andb_false_r.
      + assert (Hpow : 2 ^ 6 <= 2 ^ n) by (apply Z.pow_le_mono_r; lia).
        assert (Hlog : Z.log2 y < n) by (apply Z.log2_lt_pow2; lia).
        rewrite (Z.bits_above_log2 y n) by lia.
        apply andb_false_r. }
  rewrite <- Z.lxor_lor by exact Hland.
  rewrite <- Z.add_nocarry_lxor by exact Hland.
  change (2 ^ 6) with 64. reflexivity.
Qed.

Lemma byte_val_cont (cp k : Z) :
  0 <= cp -> 0 <= k ->
  byte_val (utf8_cont cp k) = 128 + (cp / 2 ^ (6 * k)) mod 64.
Proof.
  intros Hcp Hk. unfold utf8_cont.
  change 63 with (Z.ones 6).
  rewrite Z.land_ones by lia.
  rewrite Z.shiftr_div_pow2 by lia.
  change (2 ^ 6) with 64.
  pose proof (Z.mod_pos_bound (cp / 2 ^ (6 * k)) 64 ltac:(lia)).
  apply byte_val_of. lia.
Qed.

Lemma utf8_get_continuation (r y : Z) (c : ascii) (rest : string) (k : nat) :
  byte_val c = 128 + y -> 0 <= y < 64 -> 0 <= r -> r * 64 + y < 2 ^ 32 ->
  utf8_get r (String c rest) (S k) = utf8_get (r * 64 + y) rest k.
Proof.
  intros Hc Hy Hr Hbound. cbn [utf8_get]. rewrite Hc.
  destruct (continuation_byte y Hy) as [H1 H2].
  rewrite H1, H2, Z.eqb_refl, lor_shiftl_6 by exact Hy.
  rewrite to_uint_small by lia. reflexivity.
Qed.

Lemma lead_byte (base mask : Z) (len span : nat) :
  forallb (fun x => match utf8_compute (base + x) with
                    | Some (m, l) =>
                        (m =? mask) && Nat.eqb l len && (Z.land (base + x) mask =? x)
                    | None => false
                    end) (map Z.of_nat (seq 0 span)) = true ->
  forall x, 0 <= x < Z.of_nat span ->
    utf8_compute (base + x) = Some (mask, len) /\ Z.land (base + x) mask = x.
Proof.
  intros Hcheck x Hx.
  pose proof (range_check _ span Hcheck x Hx) as H. cbv beta in H.
  destruct (utf8_compute (base + x)) as [[m l] | ]; [ | discriminate H].
  apply andb_true_iff in H. destruct H as [H H3].
  apply andb_true_iff in H. destruct H as [H1 H2].
  apply Z.eqb_eq in H1, H3. apply Nat.eqb_eq in H2. subst m l.
  split; [reflexivity | exact H3].
Qed.

Lemma utf8_get_done (result : Z) (p : string) : utf8_get result p 0 = result.
Proof. destruct p; reflexivity. Qed.

Lemma utf8_get_char_encode (cp : Z) (rest : string) :
  is_char cp -> g_utf8_get_char (utf8_encode_char cp ++ rest) = cp.
Proof.
  intros [Hlo Hhi]. unfold utf8_encode_char.
  destruct (Z.ltb_spec cp 128) as [H1 | H1].
  - cbn [append g_utf8_get_char]. rewrite byte_val_of by lia.
    destruct (lead_byte 0 127 1 128 eq_refl cp ltac:(lia)) as [Hc Hm].
    simpl (0 + cp) in *. rewrite Hc. cbn [Nat.pred]. rewrite utf8_get_done. exact Hm.
  - pose proof (byte_val_cont cp 0 ltac:(lia) ltac:(lia)) as C0.
    pose proof (byte_val_cont cp 1 ltac:(lia) ltac:(lia)) as C1.
    pose proof (byte_val_cont cp 2 ltac:(lia) ltac:(lia)) as C2.
    change (2 ^ (6 * 0)) with 1 in C0. rewrite Z.div_1_r in C0.
    change (2 ^ (6 * 1)) with 64 in C1.
    change (2 ^ (6 * 2)) with 4096 in C2.
    pose proof (Z.mod_pos_bound cp 64 ltac:(lia)) as B0.
    pose proof (Z.mod_pos_bound (cp / 64) 64 ltac:(lia)) as B1.
    pose proof (Z.mod_pos_bound (cp / 4096) 64 ltac:(lia)) as B2.
    destruct (Z.ltb_spec cp 2048) as [H2 | H2].
    + pose proof (shiftr_bounds cp 6 2 32 ltac:(lia) ltac:(lia)) as B.
      cbn [append g_utf8_get_char]. rewrite byte_val_of by lia.
      destruct (lead_byte 192 31 2 32 eq_refl (Z.shiftr cp 6) ltac:(lia)) as [Hc Hm].
      rewrite Hc, Hm. cbn [Nat.pred].
      rewrite Z.shiftr_div_pow2 in * by lia. change (2 ^ 6) with 64 in *.
      rewrite (utf8_get_continuation _ _ _ _ _ C0 B0) by lia.
      rewrite utf8_get_done. clear - Hlo Hhi. Z.div_mod_to_equations. lia.
    + destruct (Z.ltb_spec cp 65536) as [H3 | H3].
      * pose proof (shiftr_bounds cp 12 0 16 ltac:(lia) ltac:(lia)) as B.
        cbn [append g_utf8_get_char]. rewrite byte_val_of by lia.
        destruct (lead_byte 224 15 3 16 eq_refl (Z.shiftr cp 12) ltac:(lia)) as [Hc Hm].
        rewrite Hc, Hm. cbn [Nat.pred].
        rewrite Z.shiftr_div_pow2 in * by lia. change (2 ^ 12) with 4096 in *.
        rewrite (utf8_get_continuation _ _ _ _ _ C1 B1) by lia.
        rewrite (utf8_get_continuation _ _ _ _ _ C0 B0) by lia.
        rewrite utf8_get_done. clear - Hlo Hhi. Z.div_mod_to_equations. lia.
      * pose proof (shiftr_bounds cp 18 0 5 ltac:(lia) ltac:(lia)) as B.
        cbn [append g_utf8_get_char]. rewrite byte_val_of by lia.
        destruct (lead_byte 240 7 4 8 eq_refl (Z.shiftr cp 18) ltac:(lia)) as [Hc Hm].
        rewrite Hc, Hm. cbn [Nat.pred].
        rewrite Z.shiftr_div_pow2 in * by lia. change (2 ^ 18) with 262144 in *.
        rewrite (utf8_get_continuation _ _ _ _ _ C2 B2) by lia.
        rewrite (utf8_get_continuation _ _ _ _ _ C1 B1) by lia.
        rewrite (utf8_get_continuation _ _ _ _ _ C0 B0) by lia.
        rewrite utf8_get_done. clear - Hlo Hhi. Z.div_mod_to_equations. lia.
Qed.

Lemma string_drop_length (s rest : string) :
  string_drop (String.length s) (s ++ rest) = rest.
Proof. induction s as [ | c s IH]; [destruct rest; reflexivity | exact IH]. Qed.

(** The first byte of an encoded character is not NUL and announces the
    length of the encoding. *)
Lemma utf8_encode_char_lead (cp : Z) :
  is_char cp ->
  exists lead tail,
    utf8_encode_char cp = String lead tail /\
    byte_val lead <> 0 /\
    g_utf8_skip (byte_val lead) = S (String.length tail).
Proof.
  intros [Hlo Hhi]. unfold utf8_encode_char.
  destruct (Z.ltb_spec cp 128) as [H1 | H1];
    [ | destruct (Z.ltb_spec cp 2048) as [H2 | H2];
        [ | destruct (Z.ltb_spec cp 65536) as [H3 | H3]]];
    eexists; eexists; (split; [reflexivity | ]).
  - rewrite byte_val_of by lia. split; [lia | ].
    unfold g_utf8_skip. destruct (Z.ltb_spec cp 192); [reflexivity | lia].
  - pose proof (shiftr_bounds cp 6 2 32 ltac:(lia) ltac:(lia)) as B.
    rewrite byte_val_of by lia. split; [lia | ].
    unfold g_utf8_skip.
    destruct (Z.ltb_spec (192 + Z.shiftr cp 6) 192); [lia | ].
    destruct (Z.ltb_spec (192 + Z.shiftr cp 6) 224); [reflexivity | lia].
  - pose proof (shiftr_bounds cp 12 0 16 ltac:(lia) ltac:(lia)) as B.
    rewrite byte_val_of by lia. split; [lia | ].
    unfold g_utf8_skip.
    destruct (Z.ltb_spec (224 + Z.shiftr cp 12) 192); [lia | ].
    destruct (Z.ltb_spec (224 + Z.shiftr cp 12) 224); [lia | ].
    destruct (Z.ltb_spec (224 + Z.shiftr cp 12) 240); [reflexivity | lia].
  - pose proof (shiftr_bounds cp 18 0 5 ltac:(lia) ltac:(lia)) as B.
    rewrite byte_val_of by lia. split; [lia | ].
    unfold g_utf8_skip.
    destruct (Z.ltb_spec (240 + Z.shiftr cp 18) 192); [lia | ].
    destruct (Z.ltb_spec (240 + Z.shiftr cp 18) 224); [lia | ].
    destruct (Z.ltb_spec (240 + Z.shiftr cp 18) 240); [lia | ].
    destruct (Z.ltb_spec (240 + Z.shiftr cp 18) 248); [reflexivity | lia].
Qed.

Lemma g_utf8_next_char_encode (cp : Z) (rest : string) :
  is_char cp -> g_utf8_next_char (utf8_encode_char cp ++ rest) = rest.
Proof.
  intros Hcp.
  destruct (utf8_encode_char_lead cp Hcp) as (lead & tail & -> & _ & Hskip).
  cbn [append g_utf8_next_char]. rewrite Hskip.
  cbn [string_drop]. apply string_drop_length.
Qed.

Lemma g_utf8_offset_to_pointer_encode (cps : list Z) (i : nat) :
  Forall is_char cps ->
  g_utf8_offset_to_pointer (utf8_encode cps) i = utf8_encode (skipn i cps).
Proof.
  intros Hall. revert i.
  induction Hall as [ | cp cps Hcp _ IH]; intros i.
  - rewrite skipn_nil. induction i as [ | i IHi]; [reflexivity | exact IHi].
  - destruct i as [ | i]; [reflexivity | ].
    cbn [g_utf8_offset_to_pointer utf8_encode skipn].
    rewrite g_utf8_next_char_encode by exact Hcp. apply IH.
Qed.

(** Decoding at a character offset of an encoded text gives the character
    at that index. *)
Lemma g_utf8_get_char_at (cps : list Z) (i : nat) :
  Forall is_char cps -> (i < List.length cps)%nat ->
  g_utf8_get_char (g_utf8_offset_to_pointer (utf8_encode cps) i) = nth i cps 0.
Proof.
  intros Hall Hi.
  rewrite g_utf8_offset_to_pointer_encode by exact Hall.
  revert i Hi. induction Hall as [ | cp cps Hcp _ IH]; intros i Hi.
  - simpl in Hi. lia.
  - destruct i as [ | i].
    + cbn [skipn utf8_encode nth]. apply utf8_get_char_encode. exact Hcp.
    + cbn [skipn nth]. apply IH. simpl in Hi. lia.
Qed.

Lemma cstr_continuation (cp k : Z) (rest : string) :
  0 <= cp -> 0 <= k ->
  cstr (String (utf8_cont cp k) rest) = String (utf8_cont cp k) (cstr rest).
Proof.
  intros Hcp Hk. cbn [cstr]. rewrite byte_val_cont by assumption.
  pose proof (Z.mod_pos_bound (cp / 2 ^ (6 * k)) 64 ltac:(lia)).
  destruct (Z.eqb_spec (128 + (cp / 2 ^ (6 * k)) mod 64) 0); [lia | reflexivity].
Qed.

Lemma cstr_encode_char (cp : Z) (rest : string) :
  is_char cp -> cstr (utf8_encode_char cp ++ rest) = utf8_encode_char cp ++ cstr rest.
Proof.
  intros Hcp.
  destruct (utf8_encode_char_lead cp Hcp) as (lead & tail & E & Hlead & _).
  assert (Hfirst : forall s, cstr (String lead s) = String lead (cstr s)).
  { intros s. cbn [cstr]. destruct (Z.eqb_spec (byte_val lead) 0); [contradiction | reflexivity]. }
  destruct Hcp as [Hlo Hhi]. revert E. unfold utf8_encode_char.
  destruct (cp <? 128); [ | destruct (cp <? 2048); [ | destruct (cp <? 65536)]];
    intros [= <- <-]; cbn [append]; rewrite Hfirst;
    rewrite ?cstr_continuation by lia; reflexivity.
Qed.

(** An encoded text holds no NUL byte: read as a C string it is whole. *)
Lemma cstr_encode (cps : list Z) :
  Forall is_char cps -> cstr (utf8_encode cps) = utf8_encode cps.
Proof.
  induction 1 as [ | cp cps Hcp _ IH]; [reflexivity | ].
  cbn [utf8_encode]. rewrite cstr_encode_char by exact Hcp. rewrite IH. reflexivity.
Qed.

(** ** Characters of the contents *)

Section Characters.

Context {T : Type} {accessible_text : GtkAccessibleText T}.
Context {atspi : AtspiTextGranularity}.

(** X12.  [GetCharacterAtOffset (offset)] replies with the character at index
    [offset] of the contents it was given for the offsets from [offset] to
    [offset + 1], when these are UTF-8 text with more than [offset]
    characters: the offset indexes the returned bytes, not the whole
    text. *)
Theorem GetCharacterAtOffset_within_contents
    (offset : Z) (cps : list Z) (w : World T) :
  let r := gtk_accessible_text_get_contents (text w) (to_uint offset)
             (to_uint (offset + 1)) in
  Forall is_char cps ->
  fst r = Some (utf8_encode cps) ->
  0 <= offset < Z.of_nat (List.length cps) ->
  accessible_text_handle_method (Some "GetCharacterAtOffset") (GVTuple [GVInt32 offset]) w =
  (Done tt,
   mkWorld (snd r)
           (calls w ++ [CallGetContents (to_uint offset) (to_uint (offset + 1))])
           (replies w ++ [ReturnValue (GVTuple [GVInt32 (nth (Z.to_nat offset) cps 0)])])).
Proof.
  intros r Hall Hr Hoffset. subst r.
  unfold accessible_text_handle_method. simpl.
  unfold bind, get_contents, call. simpl.
  destruct (gtk_accessible_text_get_contents _ _ _) as [contents t'].
  simpl in Hr. subst contents. unfold g_bytes_get_data.
  rewrite utf8_strlen_encode by exact Hall.
  destruct (Z.leb_spec 0 offset); [ | lia].
  destruct (Z.ltb_spec offset (Z.of_nat (List.length cps))); [ | lia].
  cbn [andb].
  rewrite g_utf8_get_char_at by (try assumption; lia).
  assert (Hchar : is_char (nth (Z.to_nat offset) cps 0)).
  { apply (proj1 (Forall_forall is_char cps) Hall). apply nth_In. lia. }
  destruct Hchar as [Hlo Hhi].
  rewrite to_int_small by lia. reflexivity.
Qed.

(** X13.  On an object whose whole contents are the UTF-8 form of fewer than
    [2 ^ 31] characters, [GetText (0, -1)] replies with that text in full
    and [CharacterCount] is the number of its characters. *)
Theorem GetText_whole_and_CharacterCount (cps : list Z) (w : World T) :
  let r := gtk_accessible_text_get_contents (text w) 0 G_MAXUINT in
  Forall is_char cps ->
  fst r = Some (utf8_encode cps) ->
  Z.of_nat (List.length cps) < 2 ^ 31 ->
  accessible_text_handle_method (Some "GetText")
    (GVTuple [GVInt32 0; GVInt32 (-1)]) w =
  (Done tt,
   mkWorld (snd r) (calls w ++ [CallGetContents 0 G_MAXUINT])
           (replies w ++ [ReturnValue (GVTuple [GVString (Some (utf8_encode cps))])]))
  /\ accessible_text_get_property (Some "CharacterCount") w =
     (Done (Some (GVInt32 (Z.of_nat (List.length cps)))),
      mkWorld (snd r) (calls w ++ [CallGetContents 0 G_MAXUINT]) (replies w)).
Proof.
  intros r Hall Hr Hlen. subst r. split.
  - unfold accessible_text_handle_method. simpl.
    unfold bind, get_contents, call. simpl.
    change (to_uint 0) with 0.
    destruct (gtk_accessible_text_get_contents (text w) 0 G_MAXUINT) as [contents t'].
    simpl in Hr. subst contents.
    unfold g_variant_new_s, g_bytes_get_data, option_map.
    rewrite cstr_encode by exact Hall. reflexivity.
  - unfold accessible_text_get_property. simpl.
    unfold bind, get_contents, call.
    destruct (gtk_accessible_text_get_contents (text w) 0 G_MAXUINT) as [contents t'].
    simpl in Hr. subst contents. unfold ret, g_bytes_get_data.
    rewrite utf8_strlen_encode by exact Hall.
    rewrite to_int_small by lia. reflexivity.
Qed.

End Characters.

Lemma GetCharacterAtOffset_negative_witness :
  -1 < 0
  /\ accessible_text_handle_method (Some "GetCharacterAtOffset")
       (GVTuple [GVInt32 (-1)]) (fresh label_ab) =
     (Done tt,
      mkWorld label_ab [CallGetContents 4294967295 0]
              [ReturnValue (GVTuple [GVInt32 0])]).
Proof.
  assert (H : -1 < 0) by lia.
  split; [exact H | ].
  exact (GetCharacterAtOffset_negative (-1) (fresh label_ab) H).
Defined.

Lemma GetCharacterAtOffset_within_contents_witness :
  Forall is_char [97]
  /\ fst (gtk_accessible_text_get_contents label_ab 0 1) = Some (utf8_encode [97])
  /\ 0 <= 0 < 1
  /\ accessible_text_handle_method (Some "GetCharacterAtOffset")
       (GVTuple [GVInt32 0]) (fresh label_ab) =
     (Done tt,
      mkWorld label_ab [CallGetContents 0 1] [ReturnValue (GVTuple [GVInt32 97])]).
Proof.
  assert (H1 : Forall is_char [97]) by (repeat constructor; unfold is_char; lia).
  assert (H2 : 0 <= 0 < 1) by lia.
  split; [exact H1 | ]. split; [reflexivity | ]. split; [exact H2 | ].
  exact (GetCharacterAtOffset_within_contents 0 [97] (fresh label_ab) H1 eq_refl H2).
Defined.

Lemma GetText_whole_and_CharacterCount_witness :
  Forall is_char [97; 98]
  /\ fst (gtk_accessible_text_get_contents label_ab 0 G_MAXUINT) = Some (utf8_encode [97; 98])
  /\ 2 < 2 ^ 31
  /\ accessible_text_handle_method (Some "GetText")
       (GVTuple [GVInt32 0; GVInt32 (-1)]) (fresh label_ab) =
     (Done tt,
      mkWorld label_ab [CallGetContents 0 G_MAXUINT]
              [ReturnValue (GVTuple [GVString (Some "ab")])])
  /\ accessible_text_get_property (Some "CharacterCount") (fresh label_ab) =
     (Done (Some (GVInt32 2)), mkWorld label_ab [CallGetContents 0 G_MAXUINT] []).
Proof.
  assert (H1 : Forall is_char [97; 98]) by (repeat constructor; unfold is_char; lia).
  assert (H2 : 2 < 2 ^ 31) by lia.
  split; [exact H1 | ]. split; [reflexivity | ]. split; [exact H2 | ].
  exact (GetText_whole_and_CharacterCount [97; 98] (fresh label_ab) H1 eq_refl H2).
Defined.

(** ** The reported run and the intersection of the ranges *)

Section Envelope.

Context {T : Type} {accessible_text : GtkAccessibleText T}.
Context {atspi : AtspiTextGranularity}.

Lemma fold_min_le_init (l : list Z) (e : Z) : fold_left Z.min l e <= e.
Proof.
  revert e. induction l as [ | z l IH]; intros e; [simpl; lia | ].
  simpl. specialize (IH (Z.min e z)). lia.
Qed.

Lemma fold_min_monotone (l : list Z) (e1 e2 : Z) :
  e1 <= e2 -> fold_left Z.min l e1 <= fold_left Z.min l e2.
Proof.
  revert e1 e2. induction l as [ | z l IH]; intros e1 e2 H; [exact H | ].
  simpl. apply IH. lia.
Qed.

Lemma attributes_fold_envelope (attrs : list TextAttribute)
    (builder : list (string * string)) (start end_ : Z) :
  0 <= start < 2 ^ 31 ->
  0 <= end_ < 2 ^ 31 ->
  Forall (fun a => range_fits (attr_range a)) attrs ->
  let '(_, start', end') := fold_left attributes_step attrs (builder, start, end_) in
  start' = fold_left Z.max (map (fun a => range_start (attr_range a)) attrs) start
  /\ fold_left Z.min
       (map (fun a => range_start (attr_range a) + range_length (attr_range a)) attrs)
       end_ <= end' <= end_.
Proof.
  intros Hstart Hend Hall. revert builder start end_ Hstart Hend.
  induction Hall as [ | a attrs Ha _ IH]; intros builder start end_ Hstart Hend.
  - simpl. lia.
  - destruct Ha as (Hs & Hl & Hsum).
    cbn [fold_left map attributes_step].
    rewrite (to_gsize_small start) by lia.
    rewrite MAX_max.
    rewrite (to_int_small (Z.max start (range_start (attr_range a)))) by lia.
    rewrite (to_gsize_small (Z.max start (range_start (attr_range a)))) by lia.
    rewrite (to_gsize_small (Z.max start (range_start (attr_range a))
                             + range_length (attr_range a))) by lia.
    rewrite (to_gsize_small end_) by lia.
    rewrite MIN_min, to_int_small by lia.
    set (start1 := Z.max start (range_start (attr_range a))).
    set (end1 := Z.min end_ (start1 + range_length (attr_range a))).
    specialize (IH (builder ++ [(attr_name a, attr_value a)])%list start1 end1
                  ltac:(subst start1; lia) ltac:(subst end1 start1; lia)).
    destruct (fold_left attributes_step attrs _) as [[b' start'] end'].
    destruct IH as [IHs [IHlo IHhi]].
    split; [exact IHs | ]. split.
    + eapply Z.le_trans; [ | exact IHlo].
      apply fold_min_monotone. subst end1 start1. lia.
    + subst end1. lia.
Qed.

(** X14.  Whatever the order in which ranges that fit an [int] are
    reported, the run [GetAttributes] replies with contains the
    intersection of the ranges: its start is the greatest range start and
    its end is not below the least range end (nor above [G_MAXINT]). *)
Theorem GetAttributes_run_contains_intersection (offset : Z) (w : World T) :
  let r := gtk_accessible_text_get_attributes (text w) (to_uint offset) in
  Forall (fun a => range_fits (attr_range a)) (fst r) ->
  exists start end_,
    accessible_text_handle_method (Some "GetAttributes") (GVTuple [GVInt32 offset]) w =
    (Done tt,
     mkWorld (snd r)
       (calls w ++ [CallGetAttributes (to_uint offset)])
       (replies w ++
        [ReturnValue
           (GVTuple [GVDict (map (fun a => (attr_name a, attr_value a)) (fst r));
                     GVInt32 start; GVInt32 end_])]))
    /\ start = fold_left Z.max (map (fun a => range_start (attr_range a)) (fst r)) 0
    /\ fold_left Z.min
         (map (fun a => range_start (attr_range a) + range_length (attr_range a)) (fst r))
         G_MAXINT <= end_ <= G_MAXINT.
Proof.
  intros r Hfits. subst r.
  unfold accessible_text_handle_method. simpl.
  unfold bind, get_attributes, call. simpl.
  destruct (gtk_accessible_text_get_attributes (text w) (to_uint offset)) as [attrs t'].
  simpl in Hfits |- *.
  pose proof (attributes_loop_entries attrs) as Hentries.
  pose proof (attributes_fold_envelope attrs [] 0 G_MAXINT
                ltac:(lia) ltac:(unfold G_MAXINT; lia) Hfits) as Henv.
  unfold attributes_loop in *.
  destruct (fold_left attributes_step attrs ([], 0, G_MAXINT)) as [[builder start] end_].
  simpl in Hentries. subst builder.
  exists start, end_. split; [reflexivity | exact Henv].
Qed.

End Envelope.

Lemma GetAttributes_run_contains_intersection_witness :
  Forall (fun a => range_fits (attr_range a)) (label_attributes label_styled)
  /\ exists start end_,
       accessible_text_handle_method (Some "GetAttributes")
         (GVTuple [GVInt32 6]) (fresh label_styled) =
       (Done tt,
        mkWorld label_styled [CallGetAttributes 6]
          [ReturnValue
             (GVTuple [GVDict [("weight", "bold"); ("style", "italic")];
                       GVInt32 start; GVInt32 end_])])
       /\ start = 5
       /\ 8 <= end_ <= G_MAXINT.
Proof.
  assert (H : Forall (fun a => range_fits (attr_range a)) (label_attributes label_styled)).
  { repeat constructor; simpl; lia. }
  split; [exact H | ].
  exact (GetAttributes_run_contains_intersection 6 (fresh label_styled) H).
Defined.
